(** * Encrypted-upload coordination (libsync/propagateuploadencrypted.cpp)

    A shallow embedding of [PropagateUploadEncrypted]: the object's fields,
    its slots written in a small state-and-effects monad, the connections
    between jobs and slots, and an event loop that delivers job replies and
    single-shot timers.  The properties of the coordination state machine
    are stated and proved over these definitions. *)

From stdpp Require Import base option strings list gmap.
From Stdlib Require Import ZArith Ascii Lia.

Local Open Scope Z_scope.
Local Open Scope string_scope.
Local Open Scope list_scope.

(** ** Qt value types *)

Abbreviation QString := string.
Abbreviation QByteArray := string.
Abbreviation Account := string.

(** [QElapsedTimer]: invalid until [start()] records the clock. *)
Abbreviation QElapsedTimer := (option Z).

(** [QDir::separator()] on the platforms where [QDir::tempPath()] is a
    slash path. *)
Definition separator : QString := "/".

(** [QFileInfo::fileName()]: the text after the last slash. *)
Fixpoint fileName_from (acc s : QString) : QString :=
  match s with
  | EmptyString => acc
  | String c s' =>
      if Ascii.eqb c "/"%char then fileName_from "" s'
      else fileName_from (acc +:+ String c "") s'
  end.

Definition fileName (s : QString) : QString := fileName_from "" s.

(** The text before the last slash, [None] when there is no slash. *)
Fixpoint beforeLastSlash (s : QString) : option QString :=
  match s with
  | EmptyString => None
  | String c s' =>
      match beforeLastSlash s' with
      | Some d => Some (String c d)
      | None => if Ascii.eqb c "/"%char then Some "" else None
      end
  end.

(** [QFileInfo::path()]: the directory part, ["."] for a bare name and
    ["/"] for a name directly under the root. *)
Definition path (s : QString) : QString :=
  match beforeLastSlash s with
  | None => "."
  | Some EmptyString => "/"
  | Some d => d
  end.

(** [QString::section('/', 0, -2)]: every field but the last. *)
Definition section_0_m2 (s : QString) : QString :=
  match beforeLastSlash s with
  | None => ""
  | Some d => d
  end.

(** ** Data of the collaborators used by the slots *)

(** [EncryptedFile] (clientsideencryption.h): one record of the folder's
    metadata document.  A default-constructed record has empty strings. *)
Record EncryptedFile := mkEncryptedFile {
  encryptionKey : QByteArray;
  mimetype : QByteArray;
  fileVersion : Z;
  initializationVector : QByteArray;
  authenticationTag : QByteArray;
  encryptedFilename : QString;
  originalFilename : QString;
  metadataKey : Z
}.

Definition EncryptedFile_default : EncryptedFile :=
  mkEncryptedFile "" "" 0 "" "" "" "" 0.

(** [LsColJob::_folderInfos] maps a listed path to what was read for it. *)
Record FolderInfo := mkFolderInfo { fileId : QByteArray }.

Definition FolderInfo_default : FolderInfo := mkFolderInfo "".

(** [QHash::value(key)]: the default-constructed value when the key is
    absent. *)
Definition value (infos : gmap string FolderInfo) (key : QString) : FolderInfo :=
  default FolderInfo_default (infos !! key).

(** Modelled from the spec: [SyncFileItem] is declared outside src.  [_file]
    is the file's logical path; [File] is the member the record scan in
    [slotFolderEncriptedMetadataReceived] compares [originalFilename] with,
    which section 4.4 calls the file name of the upload. *)
Record SyncFileItem := mkSyncFileItem {
  _file : QString;
  File : QString
}.

Record OwncloudPropagator := mkOwncloudPropagator {
  account : Account;
  _localDir : QString
}.

(** Modelled from the spec: section 6 gives the encryption primitive two
    outcomes, ciphertext written and tag returned, or an I/O or crypto
    error; [EncryptionHelper] is declared outside src.  The call site reads
    only the tag it passed by reference. *)
Record EncryptionOutcome := mkEncryptionOutcome {
  succeeded : bool;
  returnTag : QByteArray
}.

(** What lies outside this file and is taken as a parameter: the random
    source, the encryption primitive, the mime database and the file system
    (all acting on a [World]), the metadata document class, and the value the
    class declaration gives [_currentLockingInProgress] in a new object (the
    header is not in src and the constructor does not initialise the
    member). *)
Class Collaborators := {
  declared_currentLockingInProgress : bool;
  World : Type;
  QJsonDocument : Type;
  FolderMetadata : Type;
  generateRandom : nat -> World -> QByteArray * World;
  generateRandomString : nat -> World -> QByteArray * World;
  fileEncryption :
    QByteArray -> QByteArray -> QString -> QString -> World ->
    EncryptionOutcome * World;
  mimeTypeForFile : QString -> World -> QByteArray;
  absoluteFilePath : QString -> World -> QString;
  fileInfo_size : QString -> World -> Z;
  tempPath : QString;
  toJson : QJsonDocument -> QByteArray;
  newFolderMetadata : Account -> QByteArray -> FolderMetadata;
  files : FolderMetadata -> list EncryptedFile;
  addEncryptedFile : EncryptedFile -> FolderMetadata -> FolderMetadata;
  encryptedMetadata : FolderMetadata -> QByteArray
}.

(** ** Jobs, signals and what a slot can do *)

Inductive Job :=
| GetFolderEncryptStatusJob (acc : Account) (folder : QString)
| LsColJob (acc : Account) (folder : QString) (properties : list QByteArray)
| LockEncryptFolderApiJob (acc : Account) (fileId : QByteArray)
| UnlockEncryptFolderApiJob (acc : Account) (fileId token : QByteArray)
| GetMetadataApiJob (acc : Account) (folderId : QByteArray)
| UpdateMetadataApiJob (acc : Account) (folderId metadata token : QByteArray).

(** Modelled from the spec: the class's signals are declared in the header,
    which is not in src.  [finalized] and [folerNotEncrypted] are the two the
    slots emit; [failed] stands for the typed failure of section 7. *)
Inductive ErrorKind :=
| StatusCheckFailed | FolderIdResolutionFailed | LockAcquisitionTimedOut
| LockAcquisitionAbandoned | MetadataFetchFailed | MetadataParseFailed
| EncryptionFailed | MetadataWriteFailed | UnlockFailed.

Inductive Signal :=
| finalized (localPath remotePath : QString) (bytes : Z)
| folerNotEncrypted
| failed (kind : ErrorKind).

(** What a slot does besides updating the object, in program order.  A
    logged line is kept as its literal text, joined by spaces, without the
    values streamed into it. *)
Inductive Effect :=
| Logged (msg : string)
| Started (j : Job)
| Emitted (s : Signal)
| SingleShot (msec : Z) (capturedFileId : QByteArray)
| FileEncryptionCalled (key iv : QByteArray) (input output : QString)
| AddEncryptedFileCalled (f : EncryptedFile).

Global Instance ErrorKind_eq_dec : EqDecision ErrorKind.
Proof. solve_decision. Defined.
Global Instance EncryptedFile_eq_dec : EqDecision EncryptedFile.
Proof. solve_decision. Defined.
Global Instance Job_eq_dec : EqDecision Job.
Proof. solve_decision. Defined.
Global Instance Signal_eq_dec : EqDecision Signal.
Proof. solve_decision. Defined.
Global Instance Effect_eq_dec : EqDecision Effect.
Proof. solve_decision. Defined.

(** ** The object and the slot monad *)

Section Coordination.
Context `{Collaborators}.

(** The members of [PropagateUploadEncrypted]. *)
Record PropagateUploadEncrypted := mkObject {
  _propagator : OwncloudPropagator;
  _item : SyncFileItem;
  _folderToken : QByteArray;
  _folderId : QByteArray;
  _folderLockFirstTry : QElapsedTimer;
  _currentLockingInProgress : bool;
  _metadata : option FolderMetadata;
  _encryptedFile : EncryptedFile;
  _completeFileName : QString
}.

(** Assignments to single members. *)
Definition set_folderToken (v : QByteArray) (o : PropagateUploadEncrypted) :=
  mkObject (_propagator o) (_item o) v (_folderId o) (_folderLockFirstTry o)
         (_currentLockingInProgress o) (_metadata o) (_encryptedFile o)
         (_completeFileName o).

Definition set_folderId (v : QByteArray) (o : PropagateUploadEncrypted) :=
  mkObject (_propagator o) (_item o) (_folderToken o) v (_folderLockFirstTry o)
         (_currentLockingInProgress o) (_metadata o) (_encryptedFile o)
         (_completeFileName o).

Definition set_folderLockFirstTry (v : QElapsedTimer) (o : PropagateUploadEncrypted) :=
  mkObject (_propagator o) (_item o) (_folderToken o) (_folderId o) v
         (_currentLockingInProgress o) (_metadata o) (_encryptedFile o)
         (_completeFileName o).

Definition set_currentLockingInProgress (v : bool) (o : PropagateUploadEncrypted) :=
  mkObject (_propagator o) (_item o) (_folderToken o) (_folderId o)
         (_folderLockFirstTry o) v (_metadata o) (_encryptedFile o)
         (_completeFileName o).

Definition set_metadata (v : option FolderMetadata) (o : PropagateUploadEncrypted) :=
  mkObject (_propagator o) (_item o) (_folderToken o) (_folderId o)
         (_folderLockFirstTry o) (_currentLockingInProgress o) v
         (_encryptedFile o) (_completeFileName o).

Definition set_encryptedFile (v : EncryptedFile) (o : PropagateUploadEncrypted) :=
  mkObject (_propagator o) (_item o) (_folderToken o) (_folderId o)
         (_folderLockFirstTry o) (_currentLockingInProgress o) (_metadata o) v
         (_completeFileName o).

Definition set_completeFileName (v : QString) (o : PropagateUploadEncrypted) :=
  mkObject (_propagator o) (_item o) (_folderToken o) (_folderId o)
         (_folderLockFirstTry o) (_currentLockingInProgress o) (_metadata o)
         (_encryptedFile o) v.

(** The constructor: [_propagator(propagator), _item(item), _metadata(nullptr)];
    the other members are default-constructed, and
    [_currentLockingInProgress], which the initialiser list leaves out, has
    the value its declaration gives it. *)
Definition constructed (propagator : OwncloudPropagator) (item : SyncFileItem)
  : PropagateUploadEncrypted :=
  mkObject propagator item "" "" None declared_currentLockingInProgress None
         EncryptedFile_default "".

(** What a slot runs against: the object, the world of the collaborators,
    and the reading of the clock while the slot runs. *)
Record Heap := mkHeap {
  self : PropagateUploadEncrypted;
  world : World;
  now : Z
}.

(** A slot either runs to its end, giving a value, the new heap and its
    effects in order, or hits an operation the source leaves undefined
    ([QList::first()] of an empty list, [elapsed()] of an invalid timer). *)
Definition Slot (A : Type) : Type := Heap -> option (A * Heap * list Effect).

Definition slot_ret {A} (a : A) : Slot A := fun h => Some (a, h, []).

Definition slot_bind {A B} (m : Slot A) (k : A -> Slot B) : Slot B :=
  fun h =>
    match m h with
    | None => None
    | Some (a, h1, e1) =>
        match k a h1 with
        | None => None
        | Some (b, h2, e2) => Some (b, h2, e1 ++ e2)
        end
    end.

Definition undefined {A} : Slot A := fun _ => None.

Definition perform (e : Effect) : Slot unit := fun h => Some (tt, h, [e]).

Definition this : Slot PropagateUploadEncrypted := fun h => Some (self h, h, []).

Definition assign (f : PropagateUploadEncrypted -> PropagateUploadEncrypted)
  : Slot unit :=
  fun h => Some (tt, mkHeap (f (self h)) (world h) (now h), []).

Definition clock : Slot Z := fun h => Some (now h, h, []).

(** A call into a collaborator that changes the world. *)
Definition outside {A} (f : World -> A * World) : Slot A :=
  fun h =>
    Some (fst (f (world h)), mkHeap (self h) (snd (f (world h))) (now h), []).

(** A call into a collaborator that only reads the world. *)
Definition inspect {A} (f : World -> A) : Slot A :=
  fun h => Some (f (world h), h, []).

(** The slots are written with stdpp's monad notation. *)
Global Instance Slot_ret : MRet Slot := @slot_ret.
Global Instance Slot_bind : MBind Slot := fun A B k m => slot_bind m k.

(** ** The slots *)

(** [slotTryLock], lines 90-96. *)
Definition slotTryLock (fileId : QByteArray) : Slot unit :=
  o ← this;
  perform (Started (LockEncryptFolderApiJob (account (_propagator o)) fileId)).

(** [start], lines 26-50. *)
Definition start : Slot unit :=
  perform (Logged "Starting to send an encrypted file!");;
  o ← this;
  let info := _file (_item o) in
  perform (Started (GetFolderEncryptStatusJob (account (_propagator o)) (path info))).

(** [slotFolderEncryptedStatusFetched], lines 52-68. *)
Definition slotFolderEncryptedStatusFetched (folder : QString) (isEncrypted : bool)
  : Slot unit :=
  perform (Logged "Encrypted Status Fetched");;
  if isEncrypted then
    perform (Logged "Folder is encrypted, let's get the Id from it.");;
    o ← this;
    perform (Started (LsColJob (account (_propagator o)) folder
                        ["resourcetype"; "http://owncloud.org/ns:fileid"]))
  else
    perform (Logged "Folder is not encrypted, getting back to default.");;
    perform (Emitted folerNotEncrypted).

(** [QStringList::first()]: undefined on an empty list. *)
Definition QStringList_first (list : list QString) : Slot QString :=
  match list with
  | [] => undefined
  | x :: _ => mret x
  end.

(** [QElapsedTimer::elapsed()]: undefined on a timer never started. *)
Definition elapsed (t : QElapsedTimer) : Slot Z :=
  match t with
  | None => undefined
  | Some t0 => t ← clock; mret (t - t0)
  end.

(** [slotFolderEncryptedIdReceived], lines 81-88.  [sender_folderInfos] is
    [_folderInfos] of the [LsColJob] that sent the signal. *)
Definition slotFolderEncryptedIdReceived
    (sender_folderInfos : gmap string FolderInfo) (list : list QString)
  : Slot unit :=
  perform (Logged "Received id of folder, trying to lock it so we can prepare the metadata");;
  key ← QStringList_first list;
  let folderInfo := value sender_folderInfos key in
  t ← clock;
  assign (set_folderLockFirstTry (Some t));;
  slotTryLock (fileId folderInfo).

(** [slotFolderLockedSuccessfully], lines 98-110. *)
Definition slotFolderLockedSuccessfully (fileId token : QByteArray) : Slot unit :=
  perform (Logged "Folder Locked Successfully for Upload, Fetching Metadata");;
  assign (set_currentLockingInProgress true);;
  assign (set_folderToken token);;
  assign (set_folderId fileId);;
  o ← this;
  perform (Started (GetMetadataApiJob (account (_propagator o)) (_folderId o))).

(** The scan of lines 122-128: every record whose [originalFilename] equals
    [name] overwrites the local copy, so the last one stays. *)
Definition scanFiles (name : QString) (records : list EncryptedFile)
    (encryptedFile : EncryptedFile) : EncryptedFile :=
  fold_left
    (fun found file =>
       if decide (originalFilename file = name) then file else found)
    records encryptedFile.

Definition isEmpty (s : QString) : bool := bool_decide (s = "").

(** The record as it stands after lines 130-141, given the scanned copy and
    the values drawn so far. *)
Definition withKeyMaterial (key iv : QByteArray) (f : EncryptedFile) : EncryptedFile :=
  mkEncryptedFile key (mimetype f) (fileVersion f) iv (authenticationTag f)
                  (encryptedFilename f) (originalFilename f) (metadataKey f).

Definition setUpNew (name : QString) (original : QString) (mime : QByteArray)
    (f : EncryptedFile) : EncryptedFile :=
  mkEncryptedFile (encryptionKey f) mime 1 (initializationVector f)
                  (authenticationTag f) name original 1.

Definition withTag (tag : QByteArray) (f : EncryptedFile) : EncryptedFile :=
  mkEncryptedFile (encryptionKey f) (mimetype f) (fileVersion f)
                  (initializationVector f) tag (encryptedFilename f)
                  (originalFilename f) (metadataKey f).

(** [slotFolderEncriptedMetadataReceived], lines 112-173. *)
Definition slotFolderEncriptedMetadataReceived (json : QJsonDocument) (statusCode : Z)
  : Slot unit :=
  perform (Logged "Metadata Received, Preparing it for the new file.");;
  o ← this;
  let metadata := newFolderMetadata (account (_propagator o)) (toJson json) in
  assign (set_metadata (Some metadata));;
  let info := _localDir (_propagator o) +:+ separator +:+ _file (_item o) in
  let encryptedFile := scanFiles (File (_item o)) (files metadata) EncryptedFile_default in
  key ← outside (generateRandom 16);
  iv ← outside (generateRandom 16);
  let encryptedFile := withKeyMaterial key iv encryptedFile in
  encryptedFile ←
    (if isEmpty (encryptedFilename encryptedFile) then
       name ← outside (generateRandomString 20);
       mime ← inspect (mimeTypeForFile info);
       mret (setUpNew name (fileName info) mime encryptedFile)
     else mret encryptedFile);
  perform (Logged "Creating the encrypted file.");;
  input ← inspect (absoluteFilePath info);
  let output := tempPath +:+ separator +:+ encryptedFilename encryptedFile in
  perform (FileEncryptionCalled (encryptionKey encryptedFile)
             (initializationVector encryptedFile) input output);;
  outcome ← outside (fileEncryption (encryptionKey encryptedFile)
                        (initializationVector encryptedFile) input output);
  let tag := returnTag outcome in
  assign (set_completeFileName output);;
  perform (Logged "Creating the metadata for the encrypted file.");;
  let encryptedFile := withTag tag encryptedFile in
  perform (AddEncryptedFileCalled encryptedFile);;
  let metadata := addEncryptedFile encryptedFile metadata in
  assign (set_metadata (Some metadata));;
  assign (set_encryptedFile encryptedFile);;
  perform (Logged "Metadata created, sending to the server.");;
  o ← this;
  perform (Started (UpdateMetadataApiJob (account (_propagator o)) (_folderId o)
                      (encryptedMetadata metadata) (_folderToken o))).

(** [slotUpdateMetadataSuccess], lines 175-185. *)
Definition slotUpdateMetadataSuccess (fileId : QByteArray) : Slot unit :=
  perform (Logged "Uploading of the metadata success, Encrypting the file");;
  o ← this;
  let outputInfo := _completeFileName o in
  bytes ← inspect (fileInfo_size outputInfo);
  perform (Logged "Encrypted Info:");;
  perform (Logged "Finalizing the upload part, now the actuall uploader will take over");;
  perform (Emitted (finalized
             (path outputInfo +:+ "/" +:+ fileName outputInfo)
             (section_0_m2 (_file (_item o)) +:+ "/" +:+ fileName outputInfo)
             bytes)).

(** [slotUpdateMetadataError], lines 187-190. *)
Definition slotUpdateMetadataError (fileId : QByteArray) (httpErrorResponse : Z)
  : Slot unit :=
  perform (Logged "Update metadata error for folder with error").

(** [slotUnlockEncryptedFolderSuccess], lines 192-195. *)
Definition slotUnlockEncryptedFolderSuccess (fileId : QByteArray) : Slot unit :=
  perform (Logged "Unlock Job worked for folder ").

(** [slotUnlockEncryptedFolderError], lines 197-200. *)
Definition slotUnlockEncryptedFolderError (fileId : QByteArray) (httpStatusCode : Z)
  : Slot unit :=
  perform (Logged "There was an error unlocking ").

(** The lambda handed to [QTimer::singleShot], lines 206-220. *)
Definition retryLambda (fileId : QByteArray) : Slot unit :=
  o ← this;
  if negb (_currentLockingInProgress o) then
    perform (Logged "Error locking the folder while no other update is locking it up.");;
    perform (Logged "Perhaps another client locked it.");;
    perform (Logged "Abort")
  else
    ms ← elapsed (_folderLockFirstTry o);
    if bool_decide (ms > 1000 * 60 * 5) then
      perform (Logged "One minute passed, ignoring more attemps to lock the folder.")
    else
      slotTryLock fileId.

(** [slotFolderLockedError], lines 202-223. *)
Definition slotFolderLockedError (fileId : QByteArray) (httpErrorCode : Z)
  : Slot unit :=
  perform (SingleShot 5000 fileId);;
  perform (Logged "Folder Coundn't be locked.").

(** [slotFolderEncryptedIdError], lines 225-228. *)
Definition slotFolderEncryptedIdError : Slot unit :=
  perform (Logged "Error retrieving the Id of the encrypted folder.").

(** [slotFolderEncryptedStatusError], lines 230-233. *)
Definition slotFolderEncryptedStatusError (error : Z) : Slot unit :=
  perform (Logged "Failed to retrieve the status of the folders.").

(** ** Connections and the event loop *)

(** The signals of the jobs, with the arguments they carry.  For
    [directoryListingSubfolders] the sender's [_folderInfos] travels along,
    since the slot reads it through [sender()]. *)
Inductive Reply :=
| encryptStatusFolderReceived (folder : QString) (isEncrypted : bool)
| encryptStatusError (error : Z)
| directoryListingSubfolders (folderInfos : gmap string FolderInfo) (list : list QString)
| finishedWithError
| lockSuccess (fileId token : QByteArray)
| lockError (fileId : QByteArray) (httpErrorCode : Z)
| jsonReceived (json : QJsonDocument) (statusCode : Z)
| metadataError (fileId : QByteArray) (httpErrorCode : Z)
| updateSuccess (fileId : QByteArray)
| updateError (fileId : QByteArray) (httpErrorResponse : Z)
| unlockSuccess (fileId : QByteArray)
| unlockError (fileId : QByteArray) (httpStatusCode : Z).

(** The [connect] calls: the slot a job's signal runs, [None] when the job
    has no such signal.  A signal nobody connected runs nothing
    ([GetMetadataApiJob] has only [jsonReceived] connected, lines 107-108). *)
Definition connected (j : Job) (r : Reply) : option (Slot unit) :=
  match j, r with
  | GetFolderEncryptStatusJob _ _, encryptStatusFolderReceived folder isEncrypted =>
      Some (slotFolderEncryptedStatusFetched folder isEncrypted)
  | GetFolderEncryptStatusJob _ _, encryptStatusError error =>
      Some (slotFolderEncryptedStatusError error)
  | LsColJob _ _ _, directoryListingSubfolders infos list =>
      Some (slotFolderEncryptedIdReceived infos list)
  | LsColJob _ _ _, finishedWithError =>
      Some slotFolderEncryptedIdError
  | LockEncryptFolderApiJob _ _, lockSuccess fileId token =>
      Some (slotFolderLockedSuccessfully fileId token)
  | LockEncryptFolderApiJob _ _, lockError fileId httpErrorCode =>
      Some (slotFolderLockedError fileId httpErrorCode)
  | GetMetadataApiJob _ _, jsonReceived json statusCode =>
      Some (slotFolderEncriptedMetadataReceived json statusCode)
  | GetMetadataApiJob _ _, metadataError _ _ =>
      Some (mret tt)
  | UpdateMetadataApiJob _ _ _ _, updateSuccess fileId =>
      Some (slotUpdateMetadataSuccess fileId)
  | UpdateMetadataApiJob _ _ _ _, updateError fileId httpErrorResponse =>
      Some (slotUpdateMetadataError fileId httpErrorResponse)
  | UnlockEncryptFolderApiJob _ _ _, unlockSuccess _ => Some (mret tt)
  | UnlockEncryptFolderApiJob _ _ _, unlockError _ _ => Some (mret tt)
  | _, _ => None
  end.

(** What the event loop is waiting for: the reply of a started job, or a
    single-shot timer with the time it is due and the file id its lambda
    captured. *)
Inductive Pending :=
| InFlight (j : Job)
| Timer (due : Z) (capturedFileId : QByteArray).

Definition spawned (t : Z) (e : Effect) : option Pending :=
  match e with
  | Started j => Some (InFlight j)
  | SingleShot msec fileId => Some (Timer (t + msec) fileId)
  | _ => None
  end.

Record System := mkSystem {
  heap : Heap;
  pending : list Pending;
  trace : list Effect
}.

(** Run one slot to its end: its effects extend the trace, the jobs it
    started and the timers it armed join what is pending. *)
Definition dispatch (s : System) (rest : list Pending) (m : Slot unit)
  : option System :=
  match m (heap s) with
  | None => None
  | Some (_, h, es) =>
      Some (mkSystem h (rest ++ omap (spawned (now h)) es) (trace s ++ es))
  end.

Inductive Event :=
| Respond (i : nat) (r : Reply)
| Expire (i : nat)
| Elapse (ms : Z).

(** One turn of the event loop.  A job replies once; a timer fires once, not
    before it is due; time only moves forward. *)
Definition step (s : System) (e : Event) : option System :=
  match e with
  | Respond i r =>
      match pending s !! i with
      | Some (InFlight j) =>
          match connected j r with
          | Some m => dispatch s (delete i (pending s)) m
          | None => None
          end
      | _ => None
      end
  | Expire i =>
      match pending s !! i with
      | Some (Timer due fileId) =>
          if bool_decide (due <= now (heap s))
          then dispatch s (delete i (pending s)) (retryLambda fileId)
          else None
      | _ => None
      end
  | Elapse ms =>
      if bool_decide (0 <= ms)
      then Some (mkSystem (mkHeap (self (heap s)) (world (heap s)) (now (heap s) + ms))
                          (pending s) (trace s))
      else None
  end.

Fixpoint run (s : System) (es : list Event) : option System :=
  match es with
  | [] => Some s
  | e :: es' =>
      match step s e with
      | None => None
      | Some s' => run s' es'
      end
  end.

(** The surrounding pipeline constructs the object and calls [start()]. *)
Definition boot (propagator : OwncloudPropagator) (item : SyncFileItem)
    (w : World) (t0 : Z) : option System :=
  dispatch (mkSystem (mkHeap (constructed propagator item) w t0) [] []) [] start.

Definition execute (propagator : OwncloudPropagator) (item : SyncFileItem)
    (w : World) (t0 : Z) (es : list Event) : option System :=
  match boot propagator item w t0 with
  | None => None
  | Some s => run s es
  end.

End Coordination.

(** ** Reading a trace *)

Definition isListing (e : Effect) : bool :=
  match e with Started (LsColJob _ _ _) => true | _ => false end.

Definition isLockRequest (e : Effect) : bool :=
  match e with Started (LockEncryptFolderApiJob _ _) => true | _ => false end.

Definition isUnlockRequest (e : Effect) : bool :=
  match e with Started (UnlockEncryptFolderApiJob _ _ _) => true | _ => false end.

Definition isMetadataCall (e : Effect) : bool :=
  match e with
  | Started (GetMetadataApiJob _ _) => true
  | Started (UpdateMetadataApiJob _ _ _ _) => true
  | AddEncryptedFileCalled _ => true
  | _ => false
  end.

Definition isUpdateRequest (e : Effect) : bool :=
  match e with Started (UpdateMetadataApiJob _ _ _ _) => true | _ => false end.

Definition isEncryptionCall (e : Effect) : bool :=
  match e with FileEncryptionCalled _ _ _ _ => true | _ => false end.

(** The calls that must stay away from a folder that is not encrypted. *)
Definition isEncryptedFolderCall (e : Effect) : bool :=
  isListing e || isLockRequest e || isUnlockRequest e || isMetadataCall e
  || isEncryptionCall e.

Definition isLogged (e : Effect) : bool :=
  match e with Logged _ => true | _ => false end.

Definition isEmitted (e : Effect) : bool :=
  match e with Emitted _ => true | _ => false end.

Definition isFailureReport (e : Effect) : bool :=
  match e with Emitted (failed _) => true | _ => false end.

Definition isFinalized (e : Effect) : bool :=
  match e with Emitted (finalized _ _ _) => true | _ => false end.

Definition isSingleShot (e : Effect) : bool :=
  match e with SingleShot _ _ => true | _ => false end.

Definition awaitsStatus (p : Pending) : bool :=
  match p with InFlight (GetFolderEncryptStatusJob _ _) => true | _ => false end.

(** The status check answered that the folder is not encrypted. *)
Definition isNotEncryptedReply `{Collaborators} (e : Event) : bool :=
  match e with
  | Respond _ (encryptStatusFolderReceived _ false) => true
  | _ => false
  end.

(** A lock request answered with success. *)
Definition isLockSuccess `{Collaborators} (e : Event) : bool :=
  match e with
  | Respond _ (lockSuccess _ _) => true
  | _ => false
  end.

(** The three lines the retry lambda logs when it gives up on the marker. *)
Definition abortLog : list Effect :=
  [Logged "Error locking the folder while no other update is locking it up.";
   Logged "Perhaps another client locked it.";
   Logged "Abort"].

(** The effects of a slot run on a heap, empty when it is undefined. *)
Definition effectsOf `{Collaborators} (m : Slot unit) (h : Heap) : list Effect :=
  match m h with
  | Some (_, _, es) => es
  | None => []
  end.

(** ** The status check along a run

    Three situations cover every state reached from [start]: the status
    check is still out and nothing else has happened; nothing is pending and
    no call to the encrypted folder has been made; or the status job is gone
    and "not encrypted" has not been signalled. *)

Definition noEncryptedFolderCall (es : list Effect) : Prop :=
  Forall (fun e => isEncryptedFolderCall e = false) es.

Definition notSignalledNotEncrypted (es : list Effect) : Prop :=
  Forall (fun e => e <> Emitted folerNotEncrypted) es.

Definition awaitingStatus `{Collaborators} (s : System) : Prop :=
  (exists acc p, pending s = [InFlight (GetFolderEncryptStatusJob acc p)])
  /\ noEncryptedFolderCall (trace s)
  /\ notSignalledNotEncrypted (trace s).

Definition atRest `{Collaborators} (s : System) : Prop :=
  pending s = [] /\ noEncryptedFolderCall (trace s).

Definition pastStatus `{Collaborators} (s : System) : Prop :=
  Forall (fun p => awaitsStatus p = false) (pending s)
  /\ notSignalledNotEncrypted (trace s).

Definition statusInv `{Collaborators} (s : System) : Prop :=
  awaitingStatus s \/ atRest s \/ pastStatus s.

(** The caller has been told that encryption does not apply. *)
Definition declined `{Collaborators} (s : System) : Prop :=
  pending s = []
  /\ noEncryptedFolderCall (trace s)
  /\ In (Emitted folerNotEncrypted) (trace s).

(** ** The lock manager along a run *)

Definition lockRequests (es : list Effect) : nat :=
  length (List.filter isLockRequest es).

Definition timersArmed (es : list Effect) : nat :=
  length (List.filter isSingleShot es).

(** ** The stages of a run

    The steps the comment in [start()] lists, as the event loop goes through
    them: which request is out, and which calls have been made so far. *)

(** An effect without its arguments; a logged line has no kind. *)
Inductive Kind :=
| KStatus | KListing | KLock | KUnlock | KGetMetadata | KUpdate
| KTimer | KEncrypt | KMerge | KFinalized | KNotEncrypted | KFailed.

Global Instance Kind_eq_dec : EqDecision Kind.
Proof. solve_decision. Defined.

Definition kindOf (e : Effect) : option Kind :=
  match e with
  | Logged _ => None
  | Started (GetFolderEncryptStatusJob _ _) => Some KStatus
  | Started (LsColJob _ _ _) => Some KListing
  | Started (LockEncryptFolderApiJob _ _) => Some KLock
  | Started (UnlockEncryptFolderApiJob _ _ _) => Some KUnlock
  | Started (GetMetadataApiJob _ _) => Some KGetMetadata
  | Started (UpdateMetadataApiJob _ _ _ _) => Some KUpdate
  | Emitted (finalized _ _ _) => Some KFinalized
  | Emitted folerNotEncrypted => Some KNotEncrypted
  | Emitted (failed _) => Some KFailed
  | SingleShot _ _ => Some KTimer
  | FileEncryptionCalled _ _ _ _ => Some KEncrypt
  | AddEncryptedFileCalled _ => Some KMerge
  end.

(** The calls of a trace in order, logged lines left out. *)
Definition skeleton (es : list Effect) : list Kind := omap kindOf es.

(** Where a run stands.  [RetryEnded] is the rest after a retry timer whose
    lambda returned without a new lock request. *)
Inductive Stage :=
| AwaitStatus | StatusFailed | Declined
| AwaitListing | ListingFailed
| AwaitLock | AwaitRetry | RetryEnded
| AwaitMetadata | MetadataUnanswered
| AwaitUpdate | UpdateFailed | Finalized.

(** The stage a reply leads to.  Replies that cannot be delivered at a
    stage leave it alone. *)
Definition afterReply `{Collaborators} (st : Stage) (r : Reply) : Stage :=
  match st, r with
  | AwaitStatus, encryptStatusFolderReceived _ true => AwaitListing
  | AwaitStatus, encryptStatusFolderReceived _ false => Declined
  | AwaitStatus, encryptStatusError _ => StatusFailed
  | AwaitListing, directoryListingSubfolders _ _ => AwaitLock
  | AwaitListing, finishedWithError => ListingFailed
  | AwaitLock, lockSuccess _ _ => AwaitMetadata
  | AwaitLock, lockError _ _ => AwaitRetry
  | AwaitMetadata, jsonReceived _ _ => AwaitUpdate
  | AwaitMetadata, metadataError _ _ => MetadataUnanswered
  | AwaitUpdate, updateSuccess _ => Finalized
  | AwaitUpdate, updateError _ _ => UpdateFailed
  | _, _ => st
  end.

(** The calls of [n] retries: each is a timer followed by the lock request
    its lambda issued. *)
Fixpoint retries (n : nat) : list Kind :=
  match n with
  | O => []
  | S n' => KTimer :: KLock :: retries n'
  end.

(** The calls made at a stage after the lock requests. *)
Definition stageTail (st : Stage) : list Kind :=
  match st with
  | AwaitRetry | RetryEnded => [KTimer]
  | AwaitMetadata | MetadataUnanswered => [KGetMetadata]
  | AwaitUpdate | UpdateFailed => [KGetMetadata; KEncrypt; KMerge; KUpdate]
  | Finalized => [KGetMetadata; KEncrypt; KMerge; KUpdate; KFinalized]
  | _ => []
  end.

(** The calls made by the time a stage is reached, [n] retries in. *)
Definition stageSkeleton (n : nat) (st : Stage) : list Kind :=
  match st with
  | AwaitStatus | StatusFailed => [KStatus]
  | Declined => [KStatus; KNotEncrypted]
  | AwaitListing | ListingFailed => [KStatus; KListing]
  | _ => [KStatus; KListing; KLock] ++ retries n ++ stageTail st
  end.

(** The stages that are reached through a lock success. *)
Definition underLock (st : Stage) : bool :=
  match st with
  | AwaitMetadata | MetadataUnanswered | AwaitUpdate | UpdateFailed
  | Finalized => true
  | _ => false
  end.

(** Whether [_folderLockFirstTry] has been started by a stage. *)
Definition stageClockRuns (st : Stage) : bool :=
  match st with
  | AwaitStatus | StatusFailed | Declined | AwaitListing | ListingFailed => false
  | _ => true
  end.

(** What is pending at a stage.  The metadata requests are for the object's
    folder id, the update with the object's token. *)
Definition stagePending `{Collaborators} (st : Stage) (s : System) : Prop :=
  match st with
  | AwaitStatus =>
      exists acc folder,
        pending s = [InFlight (GetFolderEncryptStatusJob acc folder)]
  | AwaitListing =>
      exists acc folder properties,
        pending s = [InFlight (LsColJob acc folder properties)]
  | AwaitLock =>
      exists acc fileId,
        pending s = [InFlight (LockEncryptFolderApiJob acc fileId)]
  | AwaitRetry =>
      exists due fileId, pending s = [Timer due fileId]
  | AwaitMetadata =>
      exists acc,
        pending s = [InFlight (GetMetadataApiJob acc (_folderId (self (heap s))))]
  | AwaitUpdate =>
      exists acc metadata,
        pending s =
        [InFlight (UpdateMetadataApiJob acc (_folderId (self (heap s))) metadata
                     (_folderToken (self (heap s))))]
  | _ => pending s = []
  end.

Definition stageClock `{Collaborators} (st : Stage) (s : System) : Prop :=
  if stageClockRuns st
  then exists t0, _folderLockFirstTry (self (heap s)) = Some t0 /\ t0 <= now (heap s)
  else _folderLockFirstTry (self (heap s)) = None.

Definition atStage `{Collaborators} (n : nat) (st : Stage) (s : System) : Prop :=
  stagePending st s
  /\ skeleton (trace s) = stageSkeleton n st
  /\ stageClock st s.

(** The folder id and token of the last lock success among the events. *)
Definition granted `{Collaborators} (es : list Event)
  : option (QByteArray * QByteArray) :=
  fold_left
    (fun g e =>
       match e with
       | Respond _ (lockSuccess fileId token) => Some (fileId, token)
       | _ => g
       end)
    es None.

(** A metadata request agrees with a grant when it names the granted folder
    id, and for an update the granted token. *)
Definition underGrant (g : option (QByteArray * QByteArray)) (e : Effect) : Prop :=
  match e with
  | Started (GetMetadataApiJob _ folderId) => exists token, g = Some (folderId, token)
  | Started (UpdateMetadataApiJob _ folderId _ token) => g = Some (folderId, token)
  | _ => True
  end.

(** How a stage is tied to the events delivered so far: the stages under
    the lock are those of the runs with a lock success, whose folder id and
    token the object then holds; the last stage needs an update success and
    the declined one a "not encrypted" reply. *)
Definition stageHistory `{Collaborators} (st : Stage) (hist : list Event)
    (s : System) : Prop :=
  existsb isLockSuccess hist = underLock st
  /\ (underLock st = true ->
      granted hist = Some (_folderId (self (heap s)), _folderToken (self (heap s))))
  /\ Forall (underGrant (granted hist)) (trace s)
  /\ (st = Finalized -> exists i fileId, In (Respond i (updateSuccess fileId)) hist)
  /\ (st = Declined -> existsb isNotEncryptedReply hist = true).

(** The full order of calls of a successful upload that needed [n]
    retries. *)
Definition fullSkeleton (n : nat) : list Kind := stageSkeleton n Finalized.

Definition isSignalKind (k : Kind) : bool :=
  match k with
  | KFinalized | KNotEncrypted | KFailed => true
  | _ => false
  end.

Definition isLockKind (k : Kind) : bool :=
  match k with KLock => true | _ => false end.

Definition isTimerKind (k : Kind) : bool :=
  match k with KTimer => true | _ => false end.

(** A name with no slash in it. *)
Fixpoint noSlash (s : QString) : bool :=
  match s with
  | EmptyString => true
  | String c s' => negb (Ascii.eqb c "/"%char) && noSlash s'
  end.

(** ** Test doubles for the collaborators

    A world that hands out predictable random strings and whose disk can be
    made to fail, and a server whose metadata documents are a few canned
    ones.  They give the slots something to run against on concrete
    inputs. *)

Record Desk := mkDesk {
  drawn : nat;
  diskFails : bool
}.

Fixpoint copies (n : nat) (c : ascii) : string :=
  match n with
  | O => ""
  | S n' => String c (copies n' c)
  end.

Definition cannedRandom (n : nat) (w : Desk) : QByteArray * Desk :=
  (copies n (ascii_of_nat (97 + drawn w mod 26)),
   mkDesk (S (drawn w)) (diskFails w)).

Definition cannedEncryption (key iv : QByteArray) (input output : QString)
    (w : Desk) : EncryptionOutcome * Desk :=
  if diskFails w then (mkEncryptionOutcome false "", w)
  else (mkEncryptionOutcome true ("tag-" +:+ key), w).

Definition reportRecord : EncryptedFile :=
  mkEncryptedFile "old-key" "application/pdf" 3 "old-iv" "old-tag"
                  "xyz123" "report.pdf" 2.

Definition namelessRecord : EncryptedFile :=
  mkEncryptedFile "old-key" "application/pdf" 3 "old-iv" "old-tag"
                  "" "report.pdf" 2.

Definition cannedDocument (text : QByteArray) : list EncryptedFile :=
  if decide (text = "report") then [reportRecord]
  else if decide (text = "nameless") then [namelessRecord]
  else [].

Fixpoint cannedSerialisation (records : list EncryptedFile) : QByteArray :=
  match records with
  | [] => ""
  | f :: rest =>
      encryptedFilename f +:+ "=" +:+ authenticationTag f +:+ ";"
        +:+ cannedSerialisation rest
  end.

Definition deskWith (marker : bool) : Collaborators := {|
  declared_currentLockingInProgress := marker;
  World := Desk;
  QJsonDocument := QByteArray;
  FolderMetadata := list EncryptedFile;
  generateRandom := cannedRandom;
  generateRandomString := cannedRandom;
  fileEncryption := cannedEncryption;
  mimeTypeForFile := fun _ _ => "text/plain";
  absoluteFilePath := fun f _ => f;
  fileInfo_size := fun _ _ => 4096;
  tempPath := "/tmp";
  toJson := fun text => text;
  newFolderMetadata := fun _ text => cannedDocument text;
  files := fun records => records;
  addEncryptedFile := fun f records => records ++ [f];
  encryptedMetadata := cannedSerialisation
|}.


(** The double whose objects start with the marker clear, and the one whose
    objects start with the marker as the specification has it. *)
Definition deskCollaborators : Collaborators := deskWith false.


Definition alice : OwncloudPropagator := mkOwncloudPropagator "alice" "/home/alice/cloud".

Definition reportItem : SyncFileItem := mkSyncFileItem "docs/report.pdf" "report.pdf".

Definition quietDesk : Desk := mkDesk 0 false.

Definition brokenDesk : Desk := mkDesk 0 true.

(** The listing a server sends for [docs]: the folder itself first. *)
Definition docsInfos : gmap string FolderInfo :=
  {[ "docs" := mkFolderInfo "10"; "docs/old" := mkFolderInfo "11" ]}.

Definition DeskEvent : Type := @Event deskCollaborators.

Definition DeskHeap : Type := @Heap deskCollaborators.

(** Scenario B up to the write-back: encrypted folder, lock granted at the
    first request, empty metadata document. *)
Definition toWriteBack : list DeskEvent :=
  [Respond 0 (encryptStatusFolderReceived "docs" true);
   Respond 0 (directoryListingSubfolders docsInfos ["docs"; "docs/old"]);
   Respond 0 (lockSuccess "10" "tok");
   Respond 0 (jsonReceived ("{}" : @QJsonDocument deskCollaborators) 200)].

Definition scenarioB : list DeskEvent :=
  toWriteBack ++ [Respond 0 (updateSuccess "10")].

(** Scenario F: the write-back is refused with status 409. *)
Definition scenarioF : list DeskEvent :=
  toWriteBack ++ [Respond 0 (updateError "10" 409)].

(** Scenario C up to the first retry timer: the first lock request fails
    and the timer fires when it is due. *)
Definition firstRetry : list DeskEvent :=
  [Respond 0 (encryptStatusFolderReceived "docs" true);
   Respond 0 (directoryListingSubfolders docsInfos ["docs"; "docs/old"]);
   Respond 0 (lockError "10" 423);
   Elapse 5000;
   Expire 0].



(** An object right after construction, seen at clock reading [t]. *)
Definition freshAt (w : Desk) (t : Z) : DeskHeap :=
  @mkHeap deskCollaborators (constructed alice reportItem) w t.

(** An object that holds the lock, with the lock clock started at 0, seen
    at clock reading [t]. *)
Definition lockedAt (w : Desk) (t : Z) : DeskHeap :=
  @mkHeap deskCollaborators
    (@mkObject deskCollaborators alice reportItem "tok" "10" (Some 0) true None
             EncryptedFile_default "")
    w t.

(** A file in the top folder: its logical path is its file name. *)
Definition rootItem : SyncFileItem := mkSyncFileItem "report.pdf" "report.pdf".

(** An object for [rootItem] that holds the lock and awaits the metadata
    document. *)
Definition mergingAt (w : Desk) (t : Z) : DeskHeap :=
  @mkHeap deskCollaborators
    (@mkObject deskCollaborators alice rootItem "tok" "10" (Some 0) true None
             EncryptedFile_default "")
    w t.




(** * Properties *)

Section Properties.
Context `{Collaborators}.

(** ** What each slot does, as an equation *)

Ltac unfold_slot :=
  cbv [mbind mret Slot_bind Slot_ret slot_bind slot_ret perform this assign
       clock outside inspect undefined QStringList_first elapsed];
  cbn [negb fst snd app].

Lemma start_runs (h : Heap) :
  start h =
  Some (tt, h,
        [Logged "Starting to send an encrypted file!";
         Started (GetFolderEncryptStatusJob (account (_propagator (self h)))
                    (path (_file (_item (self h)))))]).
Proof. reflexivity. Qed.

Lemma slotTryLock_runs (fileId : QByteArray) (h : Heap) :
  slotTryLock fileId h =
  Some (tt, h, [Started (LockEncryptFolderApiJob (account (_propagator (self h))) fileId)]).
Proof. reflexivity. Qed.

Lemma statusFetched_encrypted (folder : QString) (h : Heap) :
  slotFolderEncryptedStatusFetched folder true h =
  Some (tt, h,
        [Logged "Encrypted Status Fetched";
         Logged "Folder is encrypted, let's get the Id from it.";
         Started (LsColJob (account (_propagator (self h))) folder
                    ["resourcetype"; "http://owncloud.org/ns:fileid"])]).
Proof. reflexivity. Qed.

Lemma statusFetched_notEncrypted (folder : QString) (h : Heap) :
  slotFolderEncryptedStatusFetched folder false h =
  Some (tt, h,
        [Logged "Encrypted Status Fetched";
         Logged "Folder is not encrypted, getting back to default.";
         Emitted folerNotEncrypted]).
Proof. reflexivity. Qed.

Lemma idReceived_empty (infos : gmap string FolderInfo) (h : Heap) :
  slotFolderEncryptedIdReceived infos [] h = None.
Proof. reflexivity. Qed.

Lemma idReceived_runs (infos : gmap string FolderInfo) (x : QString)
    (rest : list QString) (h : Heap) :
  slotFolderEncryptedIdReceived infos (x :: rest) h =
  Some (tt,
        mkHeap (set_folderLockFirstTry (Some (now h)) (self h)) (world h) (now h),
        [Logged "Received id of folder, trying to lock it so we can prepare the metadata";
         Started (LockEncryptFolderApiJob (account (_propagator (self h)))
                    (fileId (value infos x)))]).
Proof. reflexivity. Qed.

Lemma lockedSuccessfully_runs (fileId token : QByteArray) (h : Heap) :
  slotFolderLockedSuccessfully fileId token h =
  Some (tt,
        mkHeap (set_folderId fileId
                  (set_folderToken token
                     (set_currentLockingInProgress true (self h))))
               (world h) (now h),
        [Logged "Folder Locked Successfully for Upload, Fetching Metadata";
         Started (GetMetadataApiJob (account (_propagator (self h))) fileId)]).
Proof. reflexivity. Qed.

Lemma lockedError_runs (fileId : QByteArray) (httpErrorCode : Z) (h : Heap) :
  slotFolderLockedError fileId httpErrorCode h =
  Some (tt, h, [SingleShot 5000 fileId; Logged "Folder Coundn't be locked."]).
Proof. reflexivity. Qed.

Lemma retry_marker_clear (fileId : QByteArray) (h : Heap) :
  _currentLockingInProgress (self h) = false ->
  retryLambda fileId h = Some (tt, h, abortLog).
Proof.
  intros Hm. unfold retryLambda; unfold_slot.
  rewrite Hm. reflexivity.
Qed.

Lemma retry_timer_invalid (fileId : QByteArray) (h : Heap) :
  _currentLockingInProgress (self h) = true ->
  _folderLockFirstTry (self h) = None ->
  retryLambda fileId h = None.
Proof.
  intros Hm Ht. unfold retryLambda; unfold_slot.
  rewrite Hm, Ht. reflexivity.
Qed.

Lemma retry_past_ceiling (fileId : QByteArray) (h : Heap) (t0 : Z) :
  _currentLockingInProgress (self h) = true ->
  _folderLockFirstTry (self h) = Some t0 ->
  now h - t0 > 1000 * 60 * 5 ->
  retryLambda fileId h =
  Some (tt, h, [Logged "One minute passed, ignoring more attemps to lock the folder."]).
Proof.
  intros Hm Ht Hlate. unfold retryLambda; unfold_slot.
  rewrite Hm, Ht; unfold_slot.
  rewrite bool_decide_eq_true_2 by exact Hlate. reflexivity.
Qed.

Lemma retry_within_ceiling (fileId : QByteArray) (h : Heap) (t0 : Z) :
  _currentLockingInProgress (self h) = true ->
  _folderLockFirstTry (self h) = Some t0 ->
  now h - t0 <= 1000 * 60 * 5 ->
  retryLambda fileId h =
  Some (tt, h, [Started (LockEncryptFolderApiJob (account (_propagator (self h))) fileId)]).
Proof.
  intros Hm Ht Hin. unfold retryLambda; unfold_slot.
  rewrite Hm, Ht; unfold_slot.
  rewrite bool_decide_eq_false_2 by lia. reflexivity.
Qed.

Lemma updateSuccess_runs (fileId : QByteArray) (h : Heap) :
  slotUpdateMetadataSuccess fileId h =
  Some (tt, h,
        [Logged "Uploading of the metadata success, Encrypting the file";
         Logged "Encrypted Info:";
         Logged "Finalizing the upload part, now the actuall uploader will take over";
         Emitted (finalized
                    (path (_completeFileName (self h)) +:+ "/"
                       +:+ fileName (_completeFileName (self h)))
                    (section_0_m2 (_file (_item (self h))) +:+ "/"
                       +:+ fileName (_completeFileName (self h)))
                    (fileInfo_size (_completeFileName (self h)) (world h)))]).
Proof. reflexivity. Qed.

(** The metadata slot never stops early: whatever the document and whatever
    the primitive did, it runs to the update request.  The intermediate
    values are named in the order the source computes them. *)
Lemma metadataReceived_runs (json : QJsonDocument) (statusCode : Z) (h : Heap) :
  let o := self h in
  let metadata := newFolderMetadata (account (_propagator o)) (toJson json) in
  let info := _localDir (_propagator o) +:+ separator +:+ _file (_item o) in
  let scanned := scanFiles (File (_item o)) (files metadata) EncryptedFile_default in
  let key := generateRandom 16 (world h) in
  let iv := generateRandom 16 (snd key) in
  let name := generateRandomString 20 (snd iv) in
  let keyed := withKeyMaterial (fst key) (fst iv) scanned in
  let prepared :=
    if isEmpty (encryptedFilename scanned)
    then setUpNew (fst name) (fileName info) (mimeTypeForFile info (snd name)) keyed
    else keyed in
  let w := if isEmpty (encryptedFilename scanned) then snd name else snd iv in
  let input := absoluteFilePath info w in
  let output := tempPath +:+ separator +:+ encryptedFilename prepared in
  let outcome := fileEncryption (fst key) (fst iv) input output w in
  let record := withTag (returnTag (fst outcome)) prepared in
  let merged := addEncryptedFile record metadata in
  slotFolderEncriptedMetadataReceived json statusCode h =
  Some (tt,
        mkHeap (mkObject (_propagator o) (_item o) (_folderToken o) (_folderId o)
                       (_folderLockFirstTry o) (_currentLockingInProgress o)
                       (Some merged) record output)
               (snd outcome) (now h),
        [Logged "Metadata Received, Preparing it for the new file.";
         Logged "Creating the encrypted file.";
         FileEncryptionCalled (fst key) (fst iv) input output;
         Logged "Creating the metadata for the encrypted file.";
         AddEncryptedFileCalled record;
         Logged "Metadata created, sending to the server.";
         Started (UpdateMetadataApiJob (account (_propagator o)) (_folderId o)
                    (encryptedMetadata merged) (_folderToken o))]).
Proof.
  intros. subst prepared w keyed.
  unfold slotFolderEncriptedMetadataReceived; unfold_slot.
  fold o metadata info scanned.
  destruct (isEmpty (encryptedFilename scanned)) eqn:Hfresh.
  - cbn [withKeyMaterial encryptedFilename]. rewrite Hfresh. unfold_slot.
    reflexivity.
  - cbn [withKeyMaterial encryptedFilename]. rewrite Hfresh. unfold_slot.
    reflexivity.
Qed.

(** ** Facts that hold of every slot a reply can run *)

(** Replace a slot run in hypothesis [Hm] by its result. *)
Ltac slot_result Hm :=
  first
    [ rewrite statusFetched_encrypted in Hm
    | rewrite statusFetched_notEncrypted in Hm
    | rewrite idReceived_empty in Hm
    | rewrite idReceived_runs in Hm
    | rewrite lockedSuccessfully_runs in Hm
    | rewrite lockedError_runs in Hm
    | rewrite updateSuccess_runs in Hm
    | rewrite metadataReceived_runs in Hm
    | cbv [slotFolderEncryptedStatusError slotFolderEncryptedIdError
           slotUpdateMetadataError mret Slot_ret slot_ret perform] in Hm ];
  simplify_eq.

(** Split on the job and the reply of a connection and run the slot. *)
Ltac connected_cases j r Hc Hm :=
  destruct j, r; cbn in Hc; try discriminate Hc;
  apply (inj Some) in Hc; subst;
  try match type of Hm with
      | slotFolderEncryptedStatusFetched _ ?b _ = _ => destruct b
      | slotFolderEncryptedIdReceived _ ?l _ = _ => destruct l
      end;
  slot_result Hm.

(** The same when the job is already known. *)
Ltac reply_cases r Hc Hm :=
  destruct r; cbn in Hc; try discriminate Hc;
  apply (inj Some) in Hc; subst;
  try match type of Hm with
      | slotFolderEncryptedStatusFetched _ ?b _ = _ => destruct b
      | slotFolderEncryptedIdReceived _ ?l _ = _ => destruct l
      end;
  slot_result Hm.

Lemma connected_slot_facts (j : Job) (r : Reply) (m : Slot unit)
    (h h' : Heap) (a : unit) (es : list Effect) :
  connected j r = Some m ->
  m h = Some (a, h', es) ->
  Forall (fun e => isUnlockRequest e = false /\ isFailureReport e = false) es
  /\ _currentLockingInProgress (self h') =
     _currentLockingInProgress (self h)
     || match r with lockSuccess _ _ => true | _ => false end
  /\ now h' = now h
  /\ ((forall acc p, j <> GetFolderEncryptStatusJob acc p) ->
      Forall (fun e => e <> Emitted folerNotEncrypted) es
      /\ forall t, Forall (fun p => awaitsStatus p = false) (omap (spawned t) es))
  /\ (Exists (fun e => isUpdateRequest e = true) es ->
      exists json statusCode, r = jsonReceived json statusCode).
Proof.
  intros Hc Hm.
  connected_cases j r Hc Hm; cbn.
  all: repeat split.
  all: try (symmetry; apply orb_false_r).
  all: try (symmetry; apply orb_true_r).
  all: try (exfalso;
            match goal with
            | Hj : forall _ _, _ <> _ |- _ => by eapply Hj
            end).
  all: try (repeat constructor; done).
  all: try (intros Hex; repeat (apply Exists_cons in Hex as [Hex|Hex]; [done|]);
            by apply Exists_nil in Hex).
  all: try (intros; eauto).
Qed.

(** The retry lambda leaves the heap alone and ends in one of three ways. *)
Lemma retry_facts (fileId : QByteArray) (h h' : Heap) (a : unit) (es : list Effect) :
  retryLambda fileId h = Some (a, h', es) ->
  h' = h
  /\ ((_currentLockingInProgress (self h) = false /\ es = abortLog)
      \/ (_currentLockingInProgress (self h) = true
          /\ exists t0, _folderLockFirstTry (self h) = Some t0
             /\ ((now h - t0 > 1000 * 60 * 5
                  /\ es = [Logged "One minute passed, ignoring more attemps to lock the folder."])
                 \/ (now h - t0 <= 1000 * 60 * 5
                     /\ es = [Started (LockEncryptFolderApiJob
                                         (account (_propagator (self h))) fileId)])))).
Proof.
  intros Hr.
  destruct (_currentLockingInProgress (self h)) eqn:Hm.
  - destruct (_folderLockFirstTry (self h)) as [t0|] eqn:Ht.
    + destruct (decide (now h - t0 > 1000 * 60 * 5)) as [Hlate|Hin].
      * rewrite (retry_past_ceiling _ _ t0) in Hr by done. simplify_eq.
        split; [done|]. right. split; [done|]. exists t0. split; [done|]. by left.
      * rewrite (retry_within_ceiling _ _ t0) in Hr by (done || lia). simplify_eq.
        split; [done|]. right. split; [done|]. exists t0. split; [done|].
        right. split; [lia | done].
    + rewrite retry_timer_invalid in Hr by done. discriminate.
  - rewrite retry_marker_clear in Hr by done. simplify_eq.
    split; [done|]. by left.
Qed.

(** ** The event loop, case by case *)

Lemma dispatch_inv (s s' : System) (rest : list Pending) (m : Slot unit) :
  dispatch s rest m = Some s' ->
  exists a h' es,
    m (heap s) = Some (a, h', es)
    /\ s' = mkSystem h' (rest ++ omap (spawned (now h')) es) (trace s ++ es).
Proof.
  unfold dispatch. intros Hd.
  destruct (m (heap s)) as [[[a h'] es]|]; [|discriminate].
  exists a, h', es. by simplify_eq.
Qed.

Lemma step_inv (s s' : System) (e : Event) :
  step s e = Some s' ->
  (exists i r j m,
      e = Respond i r /\ pending s !! i = Some (InFlight j)
      /\ connected j r = Some m
      /\ dispatch s (delete i (pending s)) m = Some s')
  \/ (exists i due fileId,
         e = Expire i /\ pending s !! i = Some (Timer due fileId)
         /\ due <= now (heap s)
         /\ dispatch s (delete i (pending s)) (retryLambda fileId) = Some s')
  \/ (exists ms,
         e = Elapse ms /\ 0 <= ms
         /\ s' = mkSystem (mkHeap (self (heap s)) (world (heap s)) (now (heap s) + ms))
                          (pending s) (trace s)).
Proof.
  intros Hs. destruct e as [i r|i|ms]; cbn in Hs.
  - destruct (pending s !! i) as [[j|due f]|] eqn:Hp; try discriminate.
    destruct (connected j r) as [m|] eqn:Hc; [|discriminate].
    left. by exists i, r, j, m.
  - destruct (pending s !! i) as [[j|due f]|] eqn:Hp; try discriminate.
    case_bool_decide; [|discriminate].
    right; left. by exists i, due, f.
  - case_bool_decide; [|discriminate].
    right; right. exists ms. by simplify_eq.
Qed.

Lemma boot_runs (propagator : OwncloudPropagator) (item : SyncFileItem)
    (w : World) (t0 : Z) :
  boot propagator item w t0 =
  Some (mkSystem (mkHeap (constructed propagator item) w t0)
          [InFlight (GetFolderEncryptStatusJob (account propagator) (path (_file item)))]
          [Logged "Starting to send an encrypted file!";
           Started (GetFolderEncryptStatusJob (account propagator) (path (_file item)))]).
Proof. reflexivity. Qed.

(** ** The in-flight marker along a run *)

Lemma step_marker (s s' : System) (e : Event) :
  step s e = Some s' ->
  _currentLockingInProgress (self (heap s')) =
  _currentLockingInProgress (self (heap s)) || isLockSuccess e.
Proof.
  intros Hs. apply step_inv in Hs as [Hs|[Hs|Hs]].
  - destruct Hs as (i & r & j & m & -> & _ & Hc & Hd).
    apply dispatch_inv in Hd as (a & h' & es & Hm & ->).
    by destruct (connected_slot_facts _ _ _ _ _ _ _ Hc Hm) as (_ & Hk & _).
  - destruct Hs as (i & due & f & -> & _ & _ & Hd).
    apply dispatch_inv in Hd as (a & h' & es & Hm & ->).
    apply retry_facts in Hm as [-> _]. cbn. by rewrite orb_false_r.
  - destruct Hs as (ms & -> & _ & ->). cbn. by rewrite orb_false_r.
Qed.

Lemma run_marker (es : list Event) (s s' : System) :
  run s es = Some s' ->
  _currentLockingInProgress (self (heap s')) =
  _currentLockingInProgress (self (heap s)) || existsb isLockSuccess es.
Proof.
  revert s. induction es as [|e es IH]; intros s Hr; cbn in Hr.
  - simplify_eq. cbn. by rewrite orb_false_r.
  - destruct (step s e) as [s1|] eqn:Hs; [|discriminate].
    rewrite (IH _ Hr), (step_marker _ _ _ Hs). cbn. by rewrite orb_assoc.
Qed.

Lemma execute_marker (propagator : OwncloudPropagator) (item : SyncFileItem)
    (w : World) (t0 : Z) (es : list Event) (s : System) :
  execute propagator item w t0 es = Some s ->
  _currentLockingInProgress (self (heap s)) =
  _currentLockingInProgress (constructed propagator item)
  || existsb isLockSuccess es.
Proof.
  unfold execute. rewrite boot_runs. intros Hr.
  by rewrite (run_marker _ _ _ Hr).
Qed.

(** What a firing timer does to the event loop, by the way its lambda
    ended. *)
Lemma step_Expire_inv (s s' : System) (k : nat) :
  step s (Expire k) = Some s' ->
  exists due fileId es,
    pending s !! k = Some (Timer due fileId)
    /\ due <= now (heap s)
    /\ retryLambda fileId (heap s) = Some (tt, heap s, es)
    /\ s' = mkSystem (heap s)
              (delete k (pending s) ++ omap (spawned (now (heap s))) es)
              (trace s ++ es).
Proof.
  intros Hs. apply step_inv in Hs as [Hs|[Hs|Hs]].
  - by destruct Hs as (? & ? & ? & ? & ? & _).
  - destruct Hs as (i & due & f & [= <-] & Hl & Hdue & Hd).
    apply dispatch_inv in Hd as ([] & h' & es & Hr & ->).
    pose proof Hr as Hfacts. apply retry_facts in Hfacts as [-> _].
    by exists due, f, es.
  - by destruct Hs as (? & ? & _).
Qed.

(** ** Lock retry *)



(** ** Failures of the status check, the listing and the write-back *)

(** C4 (amended): a failure of the status check, of the folder-id listing or
    of the metadata write-back is logged and nothing more: the slot leaves
    the object as it was, emits no signal to the caller, starts no job and
    arms no timer. *)
Theorem C4_failures_are_only_logged
    (error httpErrorResponse : Z) (fileId : QByteArray) (h : Heap) :
  slotFolderEncryptedStatusError error h =
    Some (tt, h, [Logged "Failed to retrieve the status of the folders."])
  /\ slotFolderEncryptedIdError h =
    Some (tt, h, [Logged "Error retrieving the Id of the encrypted folder."])
  /\ slotUpdateMetadataError fileId httpErrorResponse h =
    Some (tt, h, [Logged "Update metadata error for folder with error"])
  /\ existsb isEmitted (effectsOf (slotFolderEncryptedStatusError error) h) = false
  /\ existsb isEmitted (effectsOf slotFolderEncryptedIdError h) = false
  /\ existsb isEmitted
       (effectsOf (slotUpdateMetadataError fileId httpErrorResponse) h) = false.
Proof. repeat split. Qed.

(** ** Folder-id resolution *)


(** ** Metadata merge, encryption and write-back *)

Lemma scanFiles_no_match (name : QString) (records : list EncryptedFile)
    (d : EncryptedFile) :
  Forall (fun g => originalFilename g <> name) records ->
  scanFiles name records d = d.
Proof.
  unfold scanFiles. revert d.
  induction records as [|g records IH]; intros d Hall; [reflexivity|].
  apply Forall_cons in Hall as [Hg Hall]. cbn.
  rewrite decide_False by done. by apply IH.
Qed.

Lemma scanFiles_last_match (name : QString) (l1 l2 : list EncryptedFile)
    (f d : EncryptedFile) :
  originalFilename f = name ->
  Forall (fun g => originalFilename g <> name) l2 ->
  scanFiles name (l1 ++ f :: l2) d = f.
Proof.
  intros Hf Hl2. unfold scanFiles. rewrite fold_left_app. cbn.
  rewrite decide_True by done. by apply scanFiles_no_match.
Qed.

(** C5 (amended): the metadata slot always runs to the write-back, and in
    this order: it calls the encryption primitive, stores the tag the
    primitive returned in the record, hands that record to
    [addEncryptedFile] on the document it fetched, and only then starts the
    update request, whose payload is the serialisation of the document with
    the record in it.  The tag is not looked at: whatever the primitive
    returned, an empty tag too, is what the record carries.  The
    intermediate values are named in the order the source computes them. *)
Theorem C5_returned_tag_stored_before_write_back
    (json : QJsonDocument) (statusCode : Z) (h : Heap) :
  let o := self h in
  let metadata := newFolderMetadata (account (_propagator o)) (toJson json) in
  let info := _localDir (_propagator o) +:+ separator +:+ _file (_item o) in
  let scanned := scanFiles (File (_item o)) (files metadata) EncryptedFile_default in
  let key := generateRandom 16 (world h) in
  let iv := generateRandom 16 (snd key) in
  let name := generateRandomString 20 (snd iv) in
  let keyed := withKeyMaterial (fst key) (fst iv) scanned in
  let prepared :=
    if isEmpty (encryptedFilename scanned)
    then setUpNew (fst name) (fileName info) (mimeTypeForFile info (snd name)) keyed
    else keyed in
  let w := if isEmpty (encryptedFilename scanned) then snd name else snd iv in
  let input := absoluteFilePath info w in
  let output := tempPath +:+ separator +:+ encryptedFilename prepared in
  let outcome := fileEncryption (fst key) (fst iv) input output w in
  let record := withTag (returnTag (fst outcome)) prepared in
  exists h' : Heap,
    slotFolderEncriptedMetadataReceived json statusCode h =
    Some (tt, h',
          [Logged "Metadata Received, Preparing it for the new file.";
           Logged "Creating the encrypted file.";
           FileEncryptionCalled (fst key) (fst iv) input output;
           Logged "Creating the metadata for the encrypted file.";
           AddEncryptedFileCalled record;
           Logged "Metadata created, sending to the server.";
           Started (UpdateMetadataApiJob (account (_propagator o)) (_folderId o)
                      (encryptedMetadata (addEncryptedFile record metadata))
                      (_folderToken o))])
    /\ authenticationTag record = returnTag (fst outcome)
    /\ encryptionKey record = fst key
    /\ initializationVector record = fst iv
    /\ world h' = snd outcome
    /\ _metadata (self h') = Some (addEncryptedFile record metadata)
    /\ _encryptedFile (self h') = record.
Proof.
  intros.
  pose proof (metadataReceived_runs json statusCode h) as Hrun. cbv zeta in Hrun.
  eexists. split; [exact Hrun|].
  subst record prepared keyed.
  repeat split; cbn; by destruct (isEmpty _).
Qed.

(** C8 (amended): the slot does not look at how the encryption step ended.
    For any primitive and any outcome of it, success or failure, the slot
    goes on after the encryption call: it stores whatever tag the primitive
    left behind, merges the record into the fetched document and submits the
    metadata update with the serialisation of the merged document, under the
    object's folder id and token.  The calls of the slot are always the
    encryption call, the merge and the update request, in this order, and
    the update request is its last effect. *)
Theorem C8_write_back_follows_any_encryption_outcome
    (json : QJsonDocument) (statusCode : Z) (h : Heap) :
  let o := self h in
  let metadata := newFolderMetadata (account (_propagator o)) (toJson json) in
  let info := _localDir (_propagator o) +:+ separator +:+ _file (_item o) in
  let scanned := scanFiles (File (_item o)) (files metadata) EncryptedFile_default in
  let key := generateRandom 16 (world h) in
  let iv := generateRandom 16 (snd key) in
  let name := generateRandomString 20 (snd iv) in
  let keyed := withKeyMaterial (fst key) (fst iv) scanned in
  let prepared :=
    if isEmpty (encryptedFilename scanned)
    then setUpNew (fst name) (fileName info) (mimeTypeForFile info (snd name)) keyed
    else keyed in
  let w := if isEmpty (encryptedFilename scanned) then snd name else snd iv in
  let input := absoluteFilePath info w in
  let output := tempPath +:+ separator +:+ encryptedFilename prepared in
  let outcome := fileEncryption (fst key) (fst iv) input output w in
  let record := withTag (returnTag (fst outcome)) prepared in
  let merged := addEncryptedFile record metadata in
  let update :=
    Started (UpdateMetadataApiJob (account (_propagator o)) (_folderId o)
               (encryptedMetadata merged) (_folderToken o)) in
  exists (h' : Heap) (es : list Effect),
    slotFolderEncriptedMetadataReceived json statusCode h = Some (tt, h', es)
    /\ List.filter (fun e => negb (isLogged e)) es =
       [FileEncryptionCalled (fst key) (fst iv) input output;
        AddEncryptedFileCalled record;
        update]
    /\ last es = Some update
    /\ world h' = snd outcome
    /\ _encryptedFile (self h') = record
    /\ _metadata (self h') = Some merged
    /\ _completeFileName (self h') = output.
Proof.
  intros.
  pose proof (metadataReceived_runs json statusCode h) as Hrun. cbv zeta in Hrun.
  do 2 eexists. split; [exact Hrun|]. by repeat split.
Qed.

(** C6 (amended): the scan keeps the last record whose originalFilename
    equals the upload's file name.  Key and initialization vector are drawn
    afresh and the tag is the one the primitive returns, in every case.  If
    the record found has a non-empty encryptedFilename, its encryptedFilename,
    mimetype and fileVersion (and its originalFilename and metadataKey) are
    reused.  If no record matches, or the one found has an empty
    encryptedFilename, a new record is set up: a random encrypted filename of
    length 20, the mimetype inferred from the source file, version 1. *)
Theorem C6_reuse_named_record_else_new
    (json : QJsonDocument) (statusCode : Z) (h : Heap) :
  let o := self h in
  let metadata := newFolderMetadata (account (_propagator o)) (toJson json) in
  let info := _localDir (_propagator o) +:+ separator +:+ _file (_item o) in
  let key := generateRandom 16 (world h) in
  let iv := generateRandom 16 (snd key) in
  let name := generateRandomString 20 (snd iv) in
  let isNew (record : EncryptedFile) :=
    encryptedFilename record = fst name
    /\ mimetype record = mimeTypeForFile info (snd name)
    /\ fileVersion record = 1
    /\ originalFilename record = fileName info
    /\ metadataKey record = 1 in
  exists (h' : Heap) (es : list Effect) (input output : QString) (w : World),
    let record := _encryptedFile (self h') in
    slotFolderEncriptedMetadataReceived json statusCode h = Some (tt, h', es)
    /\ In (AddEncryptedFileCalled record) es
    /\ encryptionKey record = fst key
    /\ initializationVector record = fst iv
    /\ authenticationTag record =
       returnTag (fst (fileEncryption (fst key) (fst iv) input output w))
    /\ (forall l1 f l2,
          files metadata = l1 ++ f :: l2 ->
          originalFilename f = File (_item o) ->
          Forall (fun g => originalFilename g <> File (_item o)) l2 ->
          (encryptedFilename f <> "" ->
           encryptedFilename record = encryptedFilename f
           /\ mimetype record = mimetype f
           /\ fileVersion record = fileVersion f
           /\ originalFilename record = originalFilename f
           /\ metadataKey record = metadataKey f)
          /\ (encryptedFilename f = "" -> isNew record))
    /\ (Forall (fun g => originalFilename g <> File (_item o)) (files metadata) ->
        isNew record).
Proof.
  intros o metadata info key iv name isNew.
  pose proof (metadataReceived_runs json statusCode h) as Hrun. cbv zeta in Hrun.
  fold o metadata info key iv name in Hrun.
  do 5 eexists. split; [exact Hrun|].
  split; [do 4 right; left; reflexivity|].
  split; [cbn; by destruct (isEmpty _)|].
  split; [cbn; by destruct (isEmpty _)|].
  split; [reflexivity|].
  split.
  - intros l1 f l2 Hfiles Hf Hl2. cbn. rewrite Hfiles.
    rewrite (scanFiles_last_match _ l1 l2 f) by done.
    unfold isEmpty. split.
    + intros Hnamed. by rewrite bool_decide_eq_false_2.
    + intros Hnameless. by rewrite bool_decide_eq_true_2.
  - intros Hnone. cbn. by rewrite scanFiles_no_match.
Qed.

(** ** The encryption-status check *)

Lemma boot_awaitingStatus (propagator : OwncloudPropagator) (item : SyncFileItem)
    (w : World) (t0 : Z) (s : System) :
  boot propagator item w t0 = Some s -> awaitingStatus s.
Proof.
  rewrite boot_runs. intros [= <-]. split; [by eexists _, _|].
  split; by repeat constructor.
Qed.

Lemma step_declined (s s' : System) (e : Event) :
  declined s -> step s e = Some s' -> declined s'.
Proof.
  intros (Hp & Hcalls & Hsig) Hs. apply step_inv in Hs as [Hs|[Hs|Hs]].
  - destruct Hs as (i & r & j & m & _ & Hl & _). by rewrite Hp in Hl.
  - destruct Hs as (i & due & f & _ & Hl & _). by rewrite Hp in Hl.
  - destruct Hs as (ms & _ & _ & ->). by repeat split.
Qed.

Lemma run_declined (es : list Event) (s s' : System) :
  declined s -> run s es = Some s' -> declined s'.
Proof.
  revert s. induction es as [|e es IH]; intros s Hd Hr; cbn in Hr.
  - by simplify_eq.
  - destruct (step s e) as [s1|] eqn:Hs; [|discriminate].
    eapply IH; [|exact Hr]. by eapply step_declined.
Qed.

Lemma step_statusInv (s s' : System) (e : Event) :
  statusInv s -> step s e = Some s' -> statusInv s'.
Proof.
  intros Hinv Hs. apply step_inv in Hs as [Hs|[Hs|Hs]].
  - destruct Hs as (i & r & j & m & -> & Hl & Hc & Hd).
    apply dispatch_inv in Hd as (a & h' & es & Hm & ->).
    destruct Hinv as [((acc & p & Hp) & Hcalls & Hsig)|[[Hp _]|[Hpend Hsig]]].
    + rewrite Hp in Hl. apply list_lookup_singleton_Some in Hl as [-> [= <-]].
      destruct r; cbn in Hc; try discriminate Hc; apply (inj Some) in Hc; subst m.
      * destruct isEncrypted; slot_result Hm.
        -- right; right. rewrite Hp. split; cbn.
           ++ by repeat constructor.
           ++ apply Forall_app. split; [done|]. by repeat constructor.
        -- right; left. rewrite Hp. split; [reflexivity|]. cbn.
           apply Forall_app. split; [done|]. by repeat constructor.
      * slot_result Hm. right; left. rewrite Hp. split; [reflexivity|]. cbn.
        apply Forall_app. split; [done|]. by repeat constructor.
    + by rewrite Hp in Hl.
    + pose proof (Forall_lookup_1 _ _ _ _ Hpend Hl) as Hj.
      destruct (connected_slot_facts _ _ _ _ _ _ _ Hc Hm)
        as (_ & _ & _ & Hpast & _).
      destruct Hpast as [Hes Hsp].
      { intros acc p ->. discriminate Hj. }
      right; right. split; cbn.
      * apply Forall_app. split; [by apply Forall_delete | apply Hsp].
      * apply Forall_app. by split.
  - destruct Hs as (i & due & f & -> & Hl & _ & Hd).
    apply dispatch_inv in Hd as (a & h' & es & Hm & ->).
    destruct Hinv as [((acc & p & Hp) & _)|[[Hp _]|[Hpend Hsig]]].
    + rewrite Hp in Hl. by apply list_lookup_singleton_Some in Hl as [_ ?].
    + by rewrite Hp in Hl.
    + apply retry_facts in Hm as [-> Hes].
      right; right. split; cbn.
      * apply Forall_app. split; [by apply Forall_delete|].
        destruct Hes as [[_ ->]|(_ & t1 & _ & [[_ ->]|[_ ->]])];
          by repeat constructor.
      * apply Forall_app. split; [done|].
        destruct Hes as [[_ ->]|(_ & t1 & _ & [[_ ->]|[_ ->]])];
          by repeat constructor.
  - destruct Hs as (ms & _ & _ & ->). exact Hinv.
Qed.

Lemma step_declines (s s' : System) (e : Event) :
  statusInv s -> step s e = Some s' -> isNotEncryptedReply e = true -> declined s'.
Proof.
  intros Hinv Hs He. apply step_inv in Hs as [Hs|[Hs|Hs]].
  - destruct Hs as (i & r & j & m & -> & Hl & Hc & Hd).
    destruct r as [folder [|]| | | | | | | | | | |]; try discriminate He.
    destruct j; cbn in Hc; try discriminate Hc. apply (inj Some) in Hc; subst m.
    apply dispatch_inv in Hd as (a & h' & es & Hm & ->). slot_result Hm.
    destruct Hinv as [((acc' & p & Hp) & Hcalls & _)|[[Hp _]|[Hpend _]]].
    + rewrite Hp in Hl. apply list_lookup_singleton_Some in Hl as [-> _].
      rewrite Hp. split; [reflexivity|]. split; cbn.
      * apply Forall_app. split; [done|]. by repeat constructor.
      * apply in_or_app. right. cbn. tauto.
    + by rewrite Hp in Hl.
    + by pose proof (Forall_lookup_1 _ _ _ _ Hpend Hl).
  - destruct Hs as (i & due & f & -> & _). discriminate He.
  - destruct Hs as (ms & -> & _). discriminate He.
Qed.

Lemma run_declines (es : list Event) (s s' : System) :
  statusInv s -> run s es = Some s' ->
  existsb isNotEncryptedReply es = true -> declined s'.
Proof.
  revert s. induction es as [|e es IH]; intros s Hinv Hr Hex; cbn in Hr, Hex.
  - discriminate.
  - destruct (step s e) as [s1|] eqn:Hs; [|discriminate].
    destruct (isNotEncryptedReply e) eqn:He.
    + eapply run_declined; [|exact Hr]. by eapply step_declines.
    + eapply IH; [|exact Hr|exact Hex]. by eapply step_statusInv.
Qed.

(** C7: in every run in which the status check answers that the folder is
    not encrypted, the object emits [folerNotEncrypted] and its whole trace has
    no folder listing, no lock or unlock request, no metadata call and no
    encryption call; nothing is left pending, so nothing more can happen. *)
Theorem C7_not_encrypted_ends_the_run
    (propagator : OwncloudPropagator) (item : SyncFileItem) (w : World) (t0 : Z)
    (es : list Event) (s : System) :
  execute propagator item w t0 es = Some s ->
  existsb isNotEncryptedReply es = true ->
  In (Emitted folerNotEncrypted) (trace s)
  /\ Forall (fun e => isEncryptedFolderCall e = false) (trace s)
  /\ pending s = [].
Proof.
  unfold execute. intros He Hex.
  destruct (boot propagator item w t0) as [s0|] eqn:Hb; [|discriminate].
  apply boot_awaitingStatus in Hb.
  destruct (run_declines es s0 s) as (Hp & Hcalls & Hsig); try done.
  by left.
Qed.

(** ** What no run ever does *)

(** X6: no run, whatever the replies, starts an unlock job or emits a
    failure signal to the caller. *)
Lemma execute_never_unlocks_nor_reports
    (propagator : OwncloudPropagator) (item : SyncFileItem) (w : World) (t0 : Z)
    (es : list Event) (s : System) :
  execute propagator item w t0 es = Some s ->
  Forall (fun e => isUnlockRequest e = false /\ isFailureReport e = false) (trace s).
Proof.
  unfold execute. rewrite boot_runs.
  set (s0 := mkSystem _ _ _).
  assert (Forall (fun e => isUnlockRequest e = false /\ isFailureReport e = false)
            (trace s0)) as H0 by (by repeat constructor).
  clearbody s0. revert s0 H0.
  induction es as [|e es IH]; intros s0 H0 Hr; cbn in Hr.
  - by simplify_eq.
  - destruct (step s0 e) as [s1|] eqn:Hs; [|discriminate].
    apply (IH s1); [|exact Hr].
    apply step_inv in Hs as [Hs|[Hs|Hs]].
    + destruct Hs as (i & r & j & m & _ & _ & Hc & Hd).
      apply dispatch_inv in Hd as (a & h' & es' & Hm & ->). cbn.
      apply Forall_app. split; [done|].
      by destruct (connected_slot_facts _ _ _ _ _ _ _ Hc Hm) as (? & _).
    + destruct Hs as (i & due & f & _ & _ & _ & Hd).
      apply dispatch_inv in Hd as (a & h' & es' & Hm & ->). cbn.
      apply Forall_app. split; [done|].
      apply retry_facts in Hm as [_ Hes].
      destruct Hes as [[_ ->]|(_ & t1 & _ & [[_ ->]|[_ ->]])];
        by repeat constructor.
    + by destruct Hs as (ms & _ & _ & ->).
Qed.

(** ** The stages of a run *)

Lemma skeleton_app (es1 es2 : list Effect) :
  skeleton (es1 ++ es2) = skeleton es1 ++ skeleton es2.
Proof. apply omap_app. Qed.

Lemma granted_snoc (es : list Event) (e : Event) :
  granted (es ++ [e]) =
  match e with
  | Respond _ (lockSuccess fileId token) => Some (fileId, token)
  | _ => granted es
  end.
Proof. unfold granted. by rewrite fold_left_app. Qed.

Lemma skeleton_elem (es : list Effect) (e : Effect) (k : Kind) :
  e ∈ es -> kindOf e = Some k -> k ∈ skeleton es.
Proof. intros He Hk. apply list_elem_of_omap. by exists e. Qed.

Lemma retries_snoc (n : nat) : retries n ++ [KTimer; KLock] = retries (S n).
Proof. induction n as [|n IH]; [done|]. cbn. by rewrite IH. Qed.

Lemma retries_elem (n : nat) (k : Kind) :
  k ∈ retries n -> k = KTimer \/ k = KLock.
Proof.
  induction n as [|n IH]; cbn; intros Hk.
  - by apply elem_of_nil in Hk.
  - apply elem_of_cons in Hk as [->|Hk]; [by left|].
    apply elem_of_cons in Hk as [->|Hk]; [by right|]. by apply IH.
Qed.

(** Before the lock is granted a run has made no call but the status check,
    the listing, lock requests and retry timers, and the signal that the
    folder is not encrypted. *)
Lemma stageSkeleton_before_lock (n : nat) (st : Stage) (k : Kind) :
  underLock st = false -> k ∈ stageSkeleton n st ->
  k ∈ [KStatus; KNotEncrypted; KListing; KLock; KTimer].
Proof.
  intros Hst Hk.
  destruct st; try discriminate Hst; cbn in Hk;
    repeat (apply elem_of_cons in Hk as [->|Hk]; [set_solver|]);
    try (by apply elem_of_nil in Hk);
    try (apply elem_of_app in Hk as [Hk|Hk];
         [apply retries_elem in Hk as [->| ->]; set_solver|]);
    try (rewrite app_nil_r in Hk;
         apply retries_elem in Hk as [->| ->]; set_solver);
    repeat (apply elem_of_cons in Hk as [->|Hk]; [set_solver|]);
    by apply elem_of_nil in Hk.
Qed.

Lemma retries_no_signal (n : nat) : List.filter isSignalKind (retries n) = [].
Proof. induction n as [|n IH]; [done|]. exact IH. Qed.

(** The signals among the calls of a stage. *)
Lemma stageSkeleton_signals (n : nat) (st : Stage) :
  List.filter isSignalKind (stageSkeleton n st) =
  match st with
  | Declined => [KNotEncrypted]
  | Finalized => [KFinalized]
  | _ => []
  end.
Proof.
  destruct st; try reflexivity; cbn [stageSkeleton stageTail];
    rewrite !List.filter_app, retries_no_signal; reflexivity.
Qed.

(** A trace without metadata requests agrees with every grant. *)
Lemma underGrant_fresh (g : option (QByteArray * QByteArray)) (es : list Effect) :
  KGetMetadata ∉ skeleton es -> KUpdate ∉ skeleton es ->
  Forall (underGrant g) es.
Proof.
  intros Hget Hupd. apply Forall_forall. intros e He.
  destruct e as [msg|j|sig|ms f|key iv input output|f]; try exact I.
  destruct j; try exact I.
  - destruct Hget. by eapply skeleton_elem.
  - destruct Hupd. by eapply skeleton_elem.
Qed.

Lemma underGrant_before_lock (g : option (QByteArray * QByteArray))
    (n : nat) (st : Stage) (es : list Effect) :
  underLock st = false -> skeleton es = stageSkeleton n st ->
  Forall (underGrant g) es.
Proof.
  intros Hst Hk. apply underGrant_fresh; rewrite Hk; intros Hin;
    apply (stageSkeleton_before_lock n st _ Hst) in Hin;
    repeat (apply elem_of_cons in Hin as [Hin|Hin]; [discriminate|]);
    by apply elem_of_nil in Hin.
Qed.

Lemma lockRequests_skeleton (es : list Effect) :
  lockRequests es = length (List.filter isLockKind (skeleton es)).
Proof.
  unfold lockRequests, skeleton. induction es as [|e es IH]; [done|].
  destruct e as [msg|j|sig|ms f|key iv input output|f];
    try destruct j; try destruct sig; simpl;
    first [exact IH | f_equal; exact IH].
Qed.

Lemma timersArmed_skeleton (es : list Effect) :
  timersArmed es = length (List.filter isTimerKind (skeleton es)).
Proof.
  unfold timersArmed, skeleton. induction es as [|e es IH]; [done|].
  destruct e as [msg|j|sig|ms f|key iv input output|f];
    try destruct j; try destruct sig; simpl;
    first [exact IH | f_equal; exact IH].
Qed.

Lemma retries_locks (n : nat) : length (List.filter isLockKind (retries n)) = n.
Proof. induction n as [|n IH]; [done|]. cbn. by rewrite IH. Qed.

Lemma retries_timers (n : nat) : length (List.filter isTimerKind (retries n)) = n.
Proof. induction n as [|n IH]; [done|]. cbn. by rewrite IH. Qed.

(** The retry lambda runs to its end once the lock clock has been
    started. *)
Lemma retry_defined (fileId : QByteArray) (h : Heap) (t1 : Z) :
  _folderLockFirstTry (self h) = Some t1 ->
  is_Some (retryLambda fileId h).
Proof.
  intros Ht. destruct (_currentLockingInProgress (self h)) eqn:Hm.
  - destruct (decide (now h - t1 > 1000 * 60 * 5)) as [Hlate|Hin].
    + rewrite (retry_past_ceiling _ _ t1) by done. by eexists.
    + rewrite (retry_within_ceiling _ _ t1) by (done || lia). by eexists.
  - rewrite retry_marker_clear by done. by eexists.
Qed.

Ltac open_stage :=
  unfold atStage, stageHistory, stageClock;
  cbn [afterReply stagePending stageSkeleton stageTail underLock stageClockRuns
       trace heap pending self now world
       _currentLockingInProgress _folderLockFirstTry _folderId _folderToken
       set_folderLockFirstTry set_currentLockingInProgress set_folderToken
       set_folderId];
  rewrite ?skeleton_app, ?existsb_app, ?granted_snoc.

Ltac split_hyps :=
  repeat match goal with
         | Hx : exists _, _ |- _ => destruct Hx
         | Hx : _ /\ _ |- _ => destruct Hx
         end;
  repeat match goal with
         | Hx : ?t = Some _, Hy : ?t = Some _ |- _ =>
             rewrite Hx in Hy; injection Hy as ->
         end.

(** Close what is left of a stage goal once the slot has been run. *)
Ltac close_stage :=
  repeat match goal with
         | Hpend : pending _ = _ |- _ => rewrite Hpend
         end;
  repeat match goal with
         | Hk : skeleton (trace _) = _ |- _ => rewrite Hk
         end;
  repeat match goal with
         | Hl : existsb isLockSuccess _ = _ |- _ => rewrite Hl
         end;
  cbn;
  repeat match goal with
         | |- _ /\ _ => split
         | |- exists _, _ => eexists
         | |- Forall _ (_ ++ _) => apply Forall_app
         end;
  rewrite <- ?app_assoc;
  try done;
  try eassumption;
  try lia;
  try (repeat constructor; done);
  try (repeat constructor; eauto; done).

Lemma step_atStage (n : nat) (st : Stage) (hist : list Event)
    (s s' : System) (e : Event) :
  atStage n st s -> stageHistory st hist s -> step s e = Some s' ->
  exists n' st', atStage n' st' s' /\ stageHistory st' (hist ++ [e]) s'.
Proof.
  intros (Hp & Hk & Hc) (Hls & Hg & Hug & Hfin & Hdec) Hs.
  apply step_inv in Hs as [Hs|[Hs|Hs]].
  - destruct Hs as (i & r & j & m & -> & Hl & Hcon & Hd).
    apply dispatch_inv in Hd as (a & h' & es & Hrun & ->).
    exists (match st with AwaitListing => 0%nat | _ => n end), (afterReply st r).
    destruct st; unfold stageClock in Hc;
      cbn [stagePending stageClockRuns underLock] in Hp, Hc, Hg;
      split_hyps;
      match goal with
      | Hpend : pending s = _ |- _ => rewrite Hpend in Hl
      end;
      try done;
      apply list_lookup_singleton_Some in Hl; destruct Hl as [Hi Heq];
      simplify_eq;
      reply_cases r Hcon Hrun; open_stage; close_stage.
    + by eapply (underGrant_before_lock _ n AwaitLock).
    + repeat first [apply Forall_cons; split | apply Forall_nil_2]; cbn; eauto.
    + repeat first [apply Forall_cons; split | apply Forall_nil_2]; cbn; eauto.
    + intros _. eexists _, _. apply in_or_app. right. by left.
  - destruct Hs as (i & due & f & -> & Hl & Hdue & Hd).
    apply dispatch_inv in Hd as (a & h' & es & Hrun & ->).
    apply retry_facts in Hrun as [-> Hes].
    destruct st; unfold stageClock in Hc;
      cbn [stagePending stageClockRuns underLock] in Hp, Hc, Hg;
      split_hyps;
      match goal with
      | Hpend : pending s = _ |- _ => rewrite Hpend in Hl
      end;
      try done;
      apply list_lookup_singleton_Some in Hl; destruct Hl as [Hi Heq];
      simplify_eq.
    destruct Hes as [[_ ->]|(_ & t1 & _ & [[_ ->]|[_ ->]])].
    + exists n, RetryEnded. open_stage; close_stage.
    + exists n, RetryEnded. open_stage; close_stage.
    + exists (S n), AwaitLock. open_stage; close_stage.
      rewrite app_nil_r. do 3 f_equal. apply retries_snoc.
  - destruct Hs as (ms & -> & Hms & ->).
    exists n, st.
    destruct st; unfold stageClock in Hc;
      cbn [stagePending stageClockRuns underLock] in Hp, Hc, Hg;
      split_hyps; open_stage; close_stage.
    + intros _. rewrite orb_false_r. by apply Hdec.
    + intros _. destruct Hfin as (k & f & Hin); [done|].
      exists k, f. apply in_or_app. by left.
Qed.

Lemma run_atStage (es hist : list Event) (n : nat) (st : Stage) (s s' : System) :
  atStage n st s -> stageHistory st hist s -> run s es = Some s' ->
  exists n' st', atStage n' st' s' /\ stageHistory st' (hist ++ es) s'.
Proof.
  revert hist n st s. induction es as [|e es IH]; intros hist n st s Hst Hh Hr;
    cbn in Hr.
  - simplify_eq. rewrite app_nil_r. by exists n, st.
  - destruct (step s e) as [s1|] eqn:Hs; [|discriminate].
    destruct (step_atStage _ _ _ _ _ _ Hst Hh Hs) as (n1 & st1 & Hst1 & Hh1).
    rewrite (assoc_L (++) hist [e] es : hist ++ e :: es = (hist ++ [e]) ++ es).
    by apply (IH _ n1 st1 s1).
Qed.

Lemma execute_atStage (propagator : OwncloudPropagator) (item : SyncFileItem)
    (w : World) (t0 : Z) (es : list Event) (s : System) :
  execute propagator item w t0 es = Some s ->
  exists n st, atStage n st s /\ stageHistory st es s.
Proof.
  unfold execute. rewrite boot_runs. intros Hr.
  eapply (run_atStage es [] 0 AwaitStatus); [| |exact Hr].
  - split; [by eexists _, _|]. by repeat split.
  - split; [done|]. split; [done|]. split; [by repeat constructor|]. by split.
Qed.

(** ** Delivering a reply or a timer when it is the one thing pending *)




(** The object keeps the propagator and the item it was constructed
    with. *)
Lemma connected_keeps_identity (j : Job) (r : Reply) (m : Slot unit)
    (h h' : Heap) (a : unit) (es : list Effect) :
  connected j r = Some m ->
  m h = Some (a, h', es) ->
  _propagator (self h') = _propagator (self h) /\ _item (self h') = _item (self h).
Proof. intros Hc Hm. by connected_cases j r Hc Hm. Qed.

Lemma step_keeps_identity (s s' : System) (e : Event) :
  step s e = Some s' ->
  _propagator (self (heap s')) = _propagator (self (heap s))
  /\ _item (self (heap s')) = _item (self (heap s)).
Proof.
  intros Hs. apply step_inv in Hs as [Hs|[Hs|Hs]].
  - destruct Hs as (i & r & j & m & -> & _ & Hc & Hd).
    apply dispatch_inv in Hd as (a & h' & es & Hm & ->).
    by apply (connected_keeps_identity _ _ _ _ _ _ _ Hc Hm).
  - destruct Hs as (i & due & f & -> & _ & _ & Hd).
    apply dispatch_inv in Hd as (a & h' & es & Hm & ->).
    by apply retry_facts in Hm as [-> _].
  - by destruct Hs as (ms & -> & _ & ->).
Qed.

Lemma execute_keeps_identity (propagator : OwncloudPropagator) (item : SyncFileItem)
    (w : World) (t0 : Z) (es : list Event) (s : System) :
  execute propagator item w t0 es = Some s ->
  _propagator (self (heap s)) = propagator /\ _item (self (heap s)) = item.
Proof.
  unfold execute. rewrite boot_runs.
  set (s0 := mkSystem _ _ _).
  assert (_propagator (self (heap s0)) = propagator
          /\ _item (self (heap s0)) = item) as H0 by done.
  clearbody s0. revert s0 H0.
  induction es as [|e es IH]; intros s0 H0 Hr; cbn in Hr.
  - by simplify_eq.
  - destruct (step s0 e) as [s1|] eqn:Hs; [|discriminate].
    apply (IH s1); [|exact Hr].
    destruct (step_keeps_identity _ _ _ Hs) as [-> ->]. exact H0.
Qed.




(** ** Paths *)

Lemma append_cons (a : ascii) (s t : QString) :
  String a s +:+ t = String a (s +:+ t).
Proof. reflexivity. Qed.

Lemma append_snoc (acc : QString) (c : ascii) (n : QString) :
  (acc +:+ String c "") +:+ n = acc +:+ String c n.
Proof.
  induction acc as [|a acc IH]; [done|].
  by rewrite !append_cons, IH.
Qed.

Lemma append_empty (acc : QString) : acc +:+ "" = acc.
Proof.
  induction acc as [|a acc IH]; [done|]. by rewrite append_cons, IH.
Qed.

Lemma fileName_from_noSlash (n acc : QString) :
  noSlash n = true -> fileName_from acc n = acc +:+ n.
Proof.
  revert acc. induction n as [|c n IH]; intros acc Hn.
  - cbn. by rewrite append_empty.
  - cbn in Hn. apply andb_true_iff in Hn as [Hc Hn].
    apply negb_true_iff in Hc. cbn [fileName_from].
    rewrite Hc, IH by done. apply append_snoc.
Qed.

Lemma fileName_from_join (d n acc : QString) :
  noSlash n = true -> fileName_from acc (d +:+ "/" +:+ n) = n.
Proof.
  intros Hn. revert acc. induction d as [|c d IH]; intros acc.
  - change ("" +:+ "/" +:+ n) with (String "/" n). cbn [fileName_from].
    change (Ascii.eqb "/" "/") with true. cbn match.
    by rewrite fileName_from_noSlash.
  - rewrite append_cons. cbn [fileName_from].
    destruct (Ascii.eqb c "/"); apply IH.
Qed.

Lemma fileName_join (d n : QString) :
  noSlash n = true -> fileName (d +:+ "/" +:+ n) = n.
Proof. apply fileName_from_join. Qed.

Lemma beforeLastSlash_noSlash (n : QString) :
  noSlash n = true -> beforeLastSlash n = None.
Proof.
  induction n as [|c n IH]; intros Hn; [done|].
  cbn in Hn. apply andb_true_iff in Hn as [Hc Hn]. apply negb_true_iff in Hc.
  cbn [beforeLastSlash]. by rewrite IH, Hc.
Qed.

Lemma beforeLastSlash_join (d n : QString) :
  noSlash n = true -> beforeLastSlash (d +:+ "/" +:+ n) = Some d.
Proof.
  intros Hn. induction d as [|c d IH].
  - change ("" +:+ "/" +:+ n) with (String "/" n). cbn [beforeLastSlash].
    by rewrite beforeLastSlash_noSlash.
  - rewrite append_cons. cbn [beforeLastSlash]. by rewrite IH.
Qed.

Lemma path_join (d n : QString) :
  noSlash n = true -> d <> "" -> path (d +:+ "/" +:+ n) = d.
Proof.
  intros Hn Hd. unfold path. rewrite beforeLastSlash_join by done.
  by destruct d.
Qed.

(** ** What every run keeps to *)

Lemma emitted_skeleton (es : list Effect) :
  List.filter isSignalKind (skeleton es) = skeleton (List.filter isEmitted es).
Proof.
  unfold skeleton. induction es as [|e es IH]; [done|].
  destruct e as [msg|j|sig|ms f|key iv input output|f];
    try destruct j; try destruct sig; simpl;
    first [exact IH | f_equal; exact IH].
Qed.

Lemma emitted_count (es : list Effect) :
  length (List.filter isEmitted es) = length (List.filter isSignalKind (skeleton es)).
Proof.
  unfold skeleton. induction es as [|e es IH]; [done|].
  destruct e as [msg|j|sig|ms f|key iv input output|f];
    try destruct j; try destruct sig; simpl;
    first [exact IH | f_equal; exact IH].
Qed.

Lemma granted_In (es : list Event) (fileId token : QByteArray) :
  granted es = Some (fileId, token) ->
  exists i, In (Respond i (lockSuccess fileId token)) es.
Proof.
  induction es as [|e es IH] using rev_ind; [discriminate|].
  rewrite granted_snoc. intros Hg.
  destruct e as [i r|i|ms];
    try (destruct (IH Hg) as [k Hk]; exists k; apply in_or_app; by left).
  destruct r;
    try (destruct (IH Hg) as [k Hk]; exists k; apply in_or_app; by left).
  injection Hg as -> ->. exists i. apply in_or_app. right. by left.
Qed.

(** Every connected slot runs to its end, but for the listing slot on an
    empty listing. *)
Lemma connected_defined (j : Job) (r : Reply) (m : Slot unit) (h : Heap) :
  connected j r = Some m ->
  (forall infos, r <> directoryListingSubfolders infos []) ->
  is_Some (m h).
Proof.
  intros Hc Hne.
  destruct j, r; cbn in Hc; try discriminate Hc; apply (inj Some) in Hc; subst m.
  - destruct isEncrypted; by eexists.
  - by eexists.
  - destruct list as [|x rest]; [by destruct (Hne folderInfos)|].
    rewrite idReceived_runs. by eexists.
  - by eexists.
  - by eexists.
  - by eexists.
  - by eexists.
  - by eexists.
  - rewrite metadataReceived_runs. by eexists.
  - by eexists.
  - by eexists.
  - by eexists.
Qed.

(** X1: every run is at one of the stages, some number of retries in: the
    one request or timer of that stage is pending (nothing at a stage of
    rest), the calls made so far, logged lines aside, are exactly those of
    the stage in their order, and the lock clock runs from the listing on and
    was not started in the future.  The stages under the lock are those of
    the runs in which a lock success was delivered, and the marker is the
    value the object was constructed with, or true under the lock. *)
Theorem X1_run_is_at_a_stage
    (propagator : OwncloudPropagator) (item : SyncFileItem) (w : World) (t0 : Z)
    (es : list Event) (s : System) :
  execute propagator item w t0 es = Some s ->
  exists (n : nat) (st : Stage),
    stagePending st s
    /\ skeleton (trace s) = stageSkeleton n st
    /\ stageClock st s
    /\ underLock st = existsb isLockSuccess es
    /\ _currentLockingInProgress (self (heap s)) =
       _currentLockingInProgress (constructed propagator item) || underLock st.
Proof.
  intros He.
  destruct (execute_atStage _ _ _ _ _ _ He) as (n & st & (Hp & Hk & Hc) & Hls & _).
  exists n, st. repeat split; try done.
  rewrite <- Hls. exact (execute_marker _ _ _ _ _ _ He).
Qed.

(** X2: at any moment of any run at most one request or timer is
    outstanding. *)
Theorem X2_one_request_outstanding
    (propagator : OwncloudPropagator) (item : SyncFileItem) (w : World) (t0 : Z)
    (es : list Event) (s : System) :
  execute propagator item w t0 es = Some s ->
  (length (pending s) <= 1)%nat.
Proof.
  intros He. destruct (execute_atStage _ _ _ _ _ _ He) as (n & st & (Hp & _) & _).
  destruct st; cbn [stagePending] in Hp; split_hyps;
    match goal with
    | Hpend : pending s = _ |- _ => rewrite Hpend
    end; cbn; lia.
Qed.

(** X3: the calls of a run come in one fixed order.  Logged lines aside, the
    trace is, for some number of retries (each a retry timer followed by a
    lock request), a beginning of: status check, listing, lock request, the
    retries, metadata fetch, encryption, merge, metadata update, finalized;
    or it is the status check followed by "not encrypted"; or status check,
    listing, lock request and the retries followed by one more retry
    timer. *)
Theorem X3_calls_come_in_order
    (propagator : OwncloudPropagator) (item : SyncFileItem) (w : World) (t0 : Z)
    (es : list Event) (s : System) :
  execute propagator item w t0 es = Some s ->
  exists n : nat,
    skeleton (trace s) `prefix_of` fullSkeleton n
    \/ skeleton (trace s) = [KStatus; KNotEncrypted]
    \/ skeleton (trace s) = [KStatus; KListing; KLock] ++ retries n ++ [KTimer].
Proof.
  intros He.
  destruct (execute_atStage _ _ _ _ _ _ He) as (n & st & (_ & -> & _) & _).
  exists n.
  destruct st; cbv [fullSkeleton stageSkeleton stageTail];
    first [ right; left; reflexivity
          | right; right; reflexivity
          | left; eexists; rewrite <- ?app_assoc; reflexivity ].
Qed.

(** X4: a run emits at most one signal to its caller, and once it has
    emitted one nothing is outstanding any more. *)
Theorem X4_at_most_one_signal
    (propagator : OwncloudPropagator) (item : SyncFileItem) (w : World) (t0 : Z)
    (es : list Event) (s : System) :
  execute propagator item w t0 es = Some s ->
  (length (List.filter isEmitted (trace s)) <= 1)%nat
  /\ (List.filter isEmitted (trace s) <> [] -> pending s = []).
Proof.
  intros He.
  destruct (execute_atStage _ _ _ _ _ _ He) as (n & st & (Hp & Hk & _) & _).
  split.
  - rewrite emitted_count, Hk, stageSkeleton_signals. destruct st; cbn; lia.
  - intros Hsig.
    assert (List.filter isSignalKind (skeleton (trace s)) <> []) as Hkind.
    { rewrite emitted_skeleton.
      destruct (List.filter isEmitted (trace s)) as [|e l] eqn:Hf; [done|].
      assert (isEmitted e = true) as He'.
      { apply (proj1 (List.filter_In isEmitted e (trace s))).
        rewrite Hf. by left. }
      destruct e; try discriminate He'. by destruct s0. }
    rewrite Hk, stageSkeleton_signals in Hkind.
    destruct st; try done; exact Hp.
Qed.

(** X5: lock requests and retry timers go hand in hand.  In any run every
    retry timer was armed by the failure of a lock request of its own, and
    every lock request but the first was issued by a retry timer of its
    own: the timers armed are at most the lock requests, and the lock
    requests at most one more than the timers armed. *)
Theorem X5_lock_requests_follow_retry_timers
    (propagator : OwncloudPropagator) (item : SyncFileItem) (w : World) (t0 : Z)
    (es : list Event) (s : System) :
  execute propagator item w t0 es = Some s ->
  (timersArmed (trace s) <= lockRequests (trace s) <= timersArmed (trace s) + 1)%nat.
Proof.
  intros He.
  destruct (execute_atStage _ _ _ _ _ _ He) as (n & st & (_ & Hk & _) & _).
  rewrite lockRequests_skeleton, timersArmed_skeleton, Hk.
  destruct st; cbn [stageSkeleton stageTail];
    rewrite ?List.filter_app, ?length_app, ?retries_locks, ?retries_timers;
    cbn; lia.
Qed.

(** X7: the metadata and the file are only touched under the lock: as long
    as no lock success has been delivered, the trace has no metadata fetch,
    merge or update and no encryption call. *)
Theorem X7_nothing_touched_before_the_lock
    (propagator : OwncloudPropagator) (item : SyncFileItem) (w : World) (t0 : Z)
    (es : list Event) (s : System) :
  execute propagator item w t0 es = Some s ->
  existsb isLockSuccess es = false ->
  Forall (fun e => isMetadataCall e = false /\ isEncryptionCall e = false) (trace s).
Proof.
  intros He Hnone.
  destruct (execute_atStage _ _ _ _ _ _ He) as (n & st & (_ & Hk & _) & Hls & _).
  rewrite Hnone in Hls. symmetry in Hls.
  apply Forall_forall. intros e Hin.
  assert (forall k, kindOf e = Some k ->
                    k ∈ [KStatus; KNotEncrypted; KListing; KLock; KTimer]) as Hkind.
  { intros k Hke. apply (stageSkeleton_before_lock n st _ Hls).
    rewrite <- Hk. by eapply skeleton_elem. }
  destruct e as [msg|j|sig|ms f|key iv input output|f]; try done;
    try destruct j; try done;
    specialize (Hkind _ eq_refl);
    repeat (apply elem_of_cons in Hkind as [Hkind|Hkind]; [discriminate|]);
    by apply elem_of_nil in Hkind.
Qed.

(** X8: the metadata requests of a run are made for the folder id a lock
    success of that run delivered, and the update carries the token of the
    same lock success. *)
Theorem X8_write_back_carries_the_granted_token
    (propagator : OwncloudPropagator) (item : SyncFileItem) (w : World) (t0 : Z)
    (es : list Event) (s : System) :
  execute propagator item w t0 es = Some s ->
  (forall acc folderId metadata token,
      In (Started (UpdateMetadataApiJob acc folderId metadata token)) (trace s) ->
      exists i, In (Respond i (lockSuccess folderId token)) es)
  /\ (forall acc folderId,
        In (Started (GetMetadataApiJob acc folderId)) (trace s) ->
        exists i token, In (Respond i (lockSuccess folderId token)) es).
Proof.
  intros He.
  destruct (execute_atStage _ _ _ _ _ _ He) as (n & st & _ & _ & _ & Hg & _).
  split.
  - intros acc folderId metadata token Hin.
    apply list_elem_of_In in Hin.
    pose proof (proj1 (Forall_forall _ _) Hg _ Hin) as Hu. cbn in Hu.
    by apply granted_In.
  - intros acc folderId Hin.
    apply list_elem_of_In in Hin.
    pose proof (proj1 (Forall_forall _ _) Hg _ Hin) as [token Hu].
    destruct (granted_In _ _ _ Hu) as [i Hi]. by exists i, token.
Qed.

(** X10: in every run the event loop handles whatever a pending job can
    answer, with one exception: a listing reply with no entry, on which the
    listing slot is undefined.  A retry timer that is due always fires. *)
Theorem X10_only_an_empty_listing_is_undefined
    (propagator : OwncloudPropagator) (item : SyncFileItem) (w : World) (t0 : Z)
    (es : list Event) (s : System) :
  execute propagator item w t0 es = Some s ->
  (forall i j r m,
      pending s !! i = Some (InFlight j) ->
      connected j r = Some m ->
      (forall infos, r <> directoryListingSubfolders infos []) ->
      is_Some (step s (Respond i r)))
  /\ (forall i acc folder properties infos,
        pending s !! i = Some (InFlight (LsColJob acc folder properties)) ->
        step s (Respond i (directoryListingSubfolders infos [])) = None)
  /\ (forall i due fileId,
        pending s !! i = Some (Timer due fileId) ->
        due <= now (heap s) ->
        is_Some (step s (Expire i))).
Proof.
  intros He. split; [|split].
  - intros i j r m Hl Hc Hne. cbn. rewrite Hl, Hc. unfold dispatch.
    destruct (connected_defined j r m (heap s) Hc Hne) as [[[a h'] es'] ->].
    by eexists.
  - intros i acc folder properties infos Hl. cbn. by rewrite Hl.
  - intros i due fileId Hl Hdue. cbn. rewrite Hl.
    rewrite bool_decide_eq_true_2 by done. unfold dispatch.
    destruct (execute_atStage _ _ _ _ _ _ He) as (n & st & (Hp & _ & Hc) & _).
    destruct st; unfold stageClock in Hc;
      cbn [stagePending stageClockRuns] in Hp, Hc;
      split_hyps;
      match goal with
      | Hpend : pending s = _ |- _ => rewrite Hpend in Hl
      end;
      try done;
      apply list_lookup_singleton_Some in Hl; destruct Hl as [_ Heq];
      try discriminate Heq.
    destruct (retry_defined fileId (heap s) _ ltac:(eassumption)) as [[[a h'] es'] ->].
    by eexists.
Qed.

(** X12: whenever a retry timer fires, in any run, its lambda leaves the
    object alone and ends in one of three ways.  With the marker clear it
    logs the abort lines; with the marker set and more than 300000 ms on the
    lock clock it logs the ceiling line; in both cases nothing remains
    outstanding.  With the marker set and at most 300000 ms on the lock
    clock it issues a lock request for the file id of the failed request,
    which is then the one thing outstanding. *)
Theorem X12_a_firing_timer_gives_up_or_asks_again
    (propagator : OwncloudPropagator) (item : SyncFileItem) (w : World) (t0 : Z)
    (es : list Event) (s s' : System) (i : nat) :
  execute propagator item w t0 es = Some s ->
  step s (Expire i) = Some s' ->
  heap s' = heap s
  /\ exists due fileId t1,
       pending s = [Timer due fileId]
       /\ _folderLockFirstTry (self (heap s)) = Some t1
       /\ ((_currentLockingInProgress (self (heap s)) = false
            /\ trace s' = trace s ++ abortLog
            /\ pending s' = [])
           \/ (_currentLockingInProgress (self (heap s)) = true
               /\ now (heap s) - t1 > 1000 * 60 * 5
               /\ trace s' =
                  trace s
                  ++ [Logged "One minute passed, ignoring more attemps to lock the folder."]
               /\ pending s' = [])
           \/ (_currentLockingInProgress (self (heap s)) = true
               /\ now (heap s) - t1 <= 1000 * 60 * 5
               /\ trace s' =
                  trace s ++ [Started (LockEncryptFolderApiJob (account propagator) fileId)]
               /\ pending s' =
                  [InFlight (LockEncryptFolderApiJob (account propagator) fileId)])).
Proof.
  intros He Hs.
  destruct (execute_atStage _ _ _ _ _ _ He) as (n & st & (Hp & _ & Hc) & _).
  destruct (execute_keeps_identity _ _ _ _ _ _ He) as [Hprop _].
  apply step_Expire_inv in Hs as (due & f & es' & Hl & _ & Hr & ->).
  split; [reflexivity|].
  destruct st; unfold stageClock in Hc;
    cbn [stagePending stageClockRuns] in Hp, Hc;
    split_hyps;
    match goal with
    | Hpend : pending s = _ |- _ => rewrite Hpend in Hl |- *
    end;
    try done;
    apply list_lookup_singleton_Some in Hl; destruct Hl as [-> Heq];
    simplify_eq.
  apply retry_facts in Hr as [_ Hes].
  eexists _, _, _. split; [reflexivity|]. split; [eassumption|].
  destruct Hes as [[Hm ->]|(Hm & t1 & Ht & [[Hlate ->]|[Hin ->]])].
  - left. by repeat split.
  - right; left. split_hyps. simplify_eq. by repeat split.
  - right; right. split_hyps. simplify_eq. by repeat split.
Qed.

(** X13: the signals tell the truth about the replies.  [finalized] is
    emitted only in a run in which a lock success and an update success have
    been delivered, and [folerNotEncrypted] only in a run whose status reply
    said that the folder is not encrypted. *)
Theorem X13_signals_follow_the_replies
    (propagator : OwncloudPropagator) (item : SyncFileItem) (w : World) (t0 : Z)
    (es : list Event) (s : System) :
  execute propagator item w t0 es = Some s ->
  (existsb isFinalized (trace s) = true ->
   existsb isLockSuccess es = true
   /\ exists i fileId, In (Respond i (updateSuccess fileId)) es)
  /\ (In (Emitted folerNotEncrypted) (trace s) ->
      existsb isNotEncryptedReply es = true).
Proof.
  intros He.
  destruct (execute_atStage _ _ _ _ _ _ He)
    as (n & st & (_ & Hk & _) & Hls & _ & _ & Hfin & Hdec).
  assert (forall e k, e ∈ trace s -> kindOf e = Some k -> isSignalKind k = true ->
                      k ∈ match st with
                          | Declined => [KNotEncrypted]
                          | Finalized => [KFinalized]
                          | _ => []
                          end) as Hsignal.
  { intros e k Hin Hke Hsig. rewrite <- (stageSkeleton_signals n st), <- Hk.
    apply list_elem_of_In, List.filter_In. split; [|exact Hsig].
    apply list_elem_of_In. by eapply skeleton_elem. }
  split.
  - intros Hex. apply existsb_exists in Hex as (e & Hin & He').
    destruct e as [msg|j|sig|ms f|key iv input output|f]; try discriminate He'.
    destruct sig; try discriminate He'.
    apply list_elem_of_In in Hin.
    pose proof (Hsignal _ KFinalized Hin eq_refl eq_refl) as Hkind.
    destruct st;
      repeat (apply elem_of_cons in Hkind as [Hkind|Hkind]; [try discriminate|]);
      try (by apply elem_of_nil in Hkind).
    split; [exact Hls | by apply Hfin].
  - intros Hin. apply list_elem_of_In in Hin.
    pose proof (Hsignal _ KNotEncrypted Hin eq_refl eq_refl) as Hkind.
    destruct st;
      repeat (apply elem_of_cons in Hkind as [Hkind|Hkind]; [try discriminate|]);
      try (by apply elem_of_nil in Hkind).
    by apply Hdec.
Qed.

(** ** Where the files are *)

(** Where the metadata slot leaves the ciphertext. *)
Lemma metadataReceived_output (json : QJsonDocument) (statusCode : Z)
    (h h1 : Heap) (es1 : list Effect) :
  slotFolderEncriptedMetadataReceived json statusCode h = Some (tt, h1, es1) ->
  _completeFileName (self h1) =
    tempPath +:+ "/" +:+ encryptedFilename (_encryptedFile (self h1))
  /\ _item (self h1) = _item (self h)
  /\ exists key iv input,
       In (FileEncryptionCalled key iv input (_completeFileName (self h1))) es1.
Proof.
  intros Hrun. rewrite metadataReceived_runs in Hrun. cbv zeta in Hrun.
  injection Hrun as <- <-.
  cbn [self _completeFileName _encryptedFile _item withTag encryptedFilename].
  split; [reflexivity|]. split; [reflexivity|].
  do 3 eexists. do 2 right; left. reflexivity.
Qed.

(** X9: when the update succeeds after the metadata slot has run, the local
    path passed to [finalized] is the path the encryption call wrote to, the
    temporary folder joined to the record's encrypted filename, and the size
    is that file's; the remote path ends in the same encrypted filename.
    This needs a non-empty temporary folder and a filename with no slash. *)
Theorem X9_finalized_reports_the_ciphertext
    (json : QJsonDocument) (statusCode : Z) (fileId : QByteArray)
    (h h1 : Heap) (es1 : list Effect) :
  slotFolderEncriptedMetadataReceived json statusCode h = Some (tt, h1, es1) ->
  tempPath <> "" ->
  noSlash (encryptedFilename (_encryptedFile (self h1))) = true ->
  let name := encryptedFilename (_encryptedFile (self h1)) in
  let output := tempPath +:+ "/" +:+ name in
  (exists key iv input, In (FileEncryptionCalled key iv input output) es1)
  /\ slotUpdateMetadataSuccess fileId h1 =
     Some (tt, h1,
           [Logged "Uploading of the metadata success, Encrypting the file";
            Logged "Encrypted Info:";
            Logged "Finalizing the upload part, now the actuall uploader will take over";
            Emitted (finalized output
                       (section_0_m2 (_file (_item (self h))) +:+ "/" +:+ name)
                       (fileInfo_size output (world h1)))]).
Proof.
  intros Hrun Htemp Hname name output.
  destruct (metadataReceived_output _ _ _ _ _ Hrun) as (Hout & Hitem & Henc).
  fold name in Hout. fold output in Hout. rewrite Hout in Henc.
  split; [exact Henc|].
  rewrite updateSuccess_runs, Hout, Hitem. subst output.
  by rewrite path_join, fileName_join.
Qed.

(** X11: the parent folder at both ends.  For a file [d/n] (with [d]
    non-empty and no slash in [n]) [start] asks the encryption status of [d]
    and [finalized] names the remote path [d/] followed by the encrypted file
    name.  For a bare file name [start] asks the status of ["."], while the
    remote path is ["/"] followed by the encrypted file name. *)
Theorem X11_parent_folder_of_the_file (fileId : QByteArray) (h : Heap) :
  (forall d n,
      _file (_item (self h)) = d +:+ "/" +:+ n ->
      noSlash n = true -> d <> "" ->
      start h =
        Some (tt, h,
              [Logged "Starting to send an encrypted file!";
               Started (GetFolderEncryptStatusJob (account (_propagator (self h))) d)])
      /\ exists localPath bytes,
          last (effectsOf (slotUpdateMetadataSuccess fileId) h) =
          Some (Emitted (finalized localPath
                           (d +:+ "/" +:+ fileName (_completeFileName (self h)))
                           bytes)))
  /\ (noSlash (_file (_item (self h))) = true ->
      start h =
        Some (tt, h,
              [Logged "Starting to send an encrypted file!";
               Started (GetFolderEncryptStatusJob (account (_propagator (self h))) ".")])
      /\ exists localPath bytes,
          last (effectsOf (slotUpdateMetadataSuccess fileId) h) =
          Some (Emitted (finalized localPath
                           ("/" +:+ fileName (_completeFileName (self h)))
                           bytes))).
Proof.
  split.
  - intros d n Hfile Hn Hd. rewrite start_runs. unfold effectsOf.
    rewrite updateSuccess_runs, Hfile. unfold section_0_m2.
    rewrite path_join, beforeLastSlash_join by done.
    split; [reflexivity|]. by eexists _, _.
  - intros Hbare. rewrite start_runs. unfold effectsOf.
    rewrite updateSuccess_runs. unfold section_0_m2, path.
    rewrite beforeLastSlash_noSlash by done.
    split; [reflexivity|]. by eexists _, _.
Qed.

End Properties.

(** * The properties on concrete runs *)

#[local] Existing Instance deskCollaborators.

(** C1: scenario B runs to [finalized] and scenario F to the logged
    write-back failure; in both the object still holds the lock token, the
    trace has no unlock request, and nothing is pending that could issue
    one. *)
Theorem C1_lock_is_never_released :
  (exists s,
      execute alice reportItem quietDesk 0 scenarioB = Some s
      /\ _currentLockingInProgress (self (heap s)) = true
      /\ _folderToken (self (heap s)) = "tok"
      /\ existsb isFinalized (trace s) = true
      /\ existsb isUnlockRequest (trace s) = false
      /\ pending s = [])
  /\ (exists s,
        execute alice reportItem quietDesk 0 scenarioF = Some s
        /\ _currentLockingInProgress (self (heap s)) = true
        /\ _folderToken (self (heap s)) = "tok"
        /\ last (trace s) = Some (Logged "Update metadata error for folder with error")
        /\ existsb isUnlockRequest (trace s) = false
        /\ pending s = []).
Proof.
  split; eexists; (split; [vm_compute; reflexivity|]); repeat split.
Qed.




(** C4, counterexample: the status check fails, or the listing fails, or
    the write-back is refused.  Each run ends with nothing pending and with
    no signal at all in its trace, so no failure was reported. *)
Lemma C4_failures_are_swallowed :
  (exists s,
      execute alice reportItem quietDesk 0 [Respond 0 (encryptStatusError 500)] = Some s
      /\ existsb isFailureReport (trace s) = false
      /\ existsb isEmitted (trace s) = false
      /\ pending s = [])
  /\ (exists s,
        execute alice reportItem quietDesk 0
          [Respond 0 (encryptStatusFolderReceived "docs" true);
           Respond 0 finishedWithError] = Some s
        /\ existsb isFailureReport (trace s) = false
        /\ existsb isEmitted (trace s) = false
        /\ pending s = [])
  /\ (exists s,
        execute alice reportItem quietDesk 0 scenarioF = Some s
        /\ existsb isFailureReport (trace s) = false
        /\ existsb isEmitted (trace s) = false
        /\ pending s = []).
Proof.
  repeat split; eexists; (split; [vm_compute; reflexivity|]); by repeat split.
Qed.

(** C6, counterexample: the document holds a record for "report.pdf" whose
    encryptedFilename is empty.  The record is found, yet its identity fields
    are not reused: the merged record has a new name, the inferred mimetype
    and version 1. *)
Lemma C6_nameless_record_is_not_reused :
  exists h' es,
    slotFolderEncriptedMetadataReceived "nameless" 200 (mergingAt quietDesk 0) =
    Some (tt, h', es)
    /\ In namelessRecord
         (@files deskCollaborators
            (newFolderMetadata "alice" (@toJson deskCollaborators "nameless")))
    /\ originalFilename namelessRecord = File rootItem
    /\ encryptedFilename (_encryptedFile (self h')) <> encryptedFilename namelessRecord
    /\ mimetype (_encryptedFile (self h')) <> mimetype namelessRecord
    /\ fileVersion (_encryptedFile (self h')) <> fileVersion namelessRecord.
Proof.
  do 2 eexists. split; [vm_compute; reflexivity|].
  split; [by left|]. split; [reflexivity|]. by repeat split.
Qed.

(** The merge on two documents: one that holds a named record for
    "report.pdf", whose identity fields come back, and an empty one, for
    which a new record is set up. *)
Lemma C6_witness :
  (@files deskCollaborators (newFolderMetadata "alice" (@toJson deskCollaborators "report"))
     = [] ++ reportRecord :: []
   /\ originalFilename reportRecord = File rootItem
   /\ Forall (fun g => originalFilename g <> File rootItem) []
   /\ encryptedFilename reportRecord <> ""
   /\ exists h' es,
        slotFolderEncriptedMetadataReceived "report" 200 (mergingAt quietDesk 0) =
        Some (tt, h', es)
        /\ encryptedFilename (_encryptedFile (self h')) = "xyz123"
        /\ mimetype (_encryptedFile (self h')) = "application/pdf"
        /\ fileVersion (_encryptedFile (self h')) = 3)
  /\ (Forall (fun g => originalFilename g <> File rootItem)
         (@files deskCollaborators
            (newFolderMetadata "alice" (@toJson deskCollaborators "{}")))
      /\ exists h' es,
           slotFolderEncriptedMetadataReceived "{}" 200 (mergingAt quietDesk 0) =
           Some (tt, h', es)
           /\ encryptedFilename (_encryptedFile (self h')) = "cccccccccccccccccccc"
           /\ mimetype (_encryptedFile (self h')) = "text/plain"
           /\ fileVersion (_encryptedFile (self h')) = 1).
Proof.
  split.
  - split; [reflexivity|]. split; [reflexivity|]. split; [constructor|].
    split; [discriminate|].
    destruct (@C6_reuse_named_record_else_new deskCollaborators "report" 200
                (mergingAt quietDesk 0))
      as (h' & es & input & output & w & Hrun & _ & _ & _ & _ & Hfound & _).
    destruct (Hfound [] reportRecord [] eq_refl eq_refl (Forall_nil_2 _))
      as [Hnamed _].
    destruct Hnamed as (Hname & Hmime & Hversion & _); [discriminate|].
    exists h', es. split; [exact Hrun|]. by repeat split.
  - split; [constructor|].
    destruct (@C6_reuse_named_record_else_new deskCollaborators "{}" 200
                (mergingAt quietDesk 0))
      as (h' & es & input & output & w & Hrun & _ & _ & _ & _ & _ & Hnone).
    destruct (Hnone (Forall_nil_2 _)) as (Hname & Hmime & Hversion & _).
    exists h', es. split; [exact Hrun|]. by repeat split.
Defined.

(** C5, counterexample: the document holds a record for "report.pdf" with
    the tag of an earlier upload, and the disk fails, so the primitive
    returns no tag.  The slot puts the empty tag in the record, merges it
    and submits the update: the record that is written back for the file
    has no tag. *)
Lemma C5_write_back_with_an_empty_tag :
  exists (h' : DeskHeap) (record : EncryptedFile),
    slotFolderEncriptedMetadataReceived "report" 200 (lockedAt brokenDesk 0) =
    Some (tt, h',
          [Logged "Metadata Received, Preparing it for the new file.";
           Logged "Creating the encrypted file.";
           FileEncryptionCalled "aaaaaaaaaaaaaaaa" "bbbbbbbbbbbbbbbb"
             "/home/alice/cloud/docs/report.pdf" "/tmp/xyz123";
           Logged "Creating the metadata for the encrypted file.";
           AddEncryptedFileCalled record;
           Logged "Metadata created, sending to the server.";
           Started (UpdateMetadataApiJob "alice" "10"
                      "xyz123=old-tag;xyz123=;" "tok")])
    /\ record =
       mkEncryptedFile "aaaaaaaaaaaaaaaa" "application/pdf" 3 "bbbbbbbbbbbbbbbb"
                       "" "xyz123" "report.pdf" 2
    /\ returnTag (fst (fileEncryption "aaaaaaaaaaaaaaaa" "bbbbbbbbbbbbbbbb"
                         "/home/alice/cloud/docs/report.pdf" "/tmp/xyz123"
                         (mkDesk 2 true))) = ""
    /\ authenticationTag record = ""
    /\ _metadata (self h') = Some [reportRecord; record]
    /\ _encryptedFile (self h') = record.
Proof.
  do 2 eexists. split; [vm_compute; reflexivity|]. by repeat split.
Qed.

(** C8, counterexample: the disk fails, so the encryption primitive reports
    failure and leaves the tag empty; the slot nevertheless submits the
    metadata update, with a record whose tag is empty. *)
Lemma C8_failed_encryption_still_writes_back :
  exists h' es,
    slotFolderEncriptedMetadataReceived "{}" 200 (lockedAt brokenDesk 0) =
    Some (tt, h', es)
    /\ fileEncryption "aaaaaaaaaaaaaaaa" "bbbbbbbbbbbbbbbb"
         "/home/alice/cloud/docs/report.pdf" "/tmp/cccccccccccccccccccc"
         (mkDesk 3 true) =
       (mkEncryptionOutcome false "", mkDesk 3 true)
    /\ In (FileEncryptionCalled "aaaaaaaaaaaaaaaa" "bbbbbbbbbbbbbbbb"
             "/home/alice/cloud/docs/report.pdf" "/tmp/cccccccccccccccccccc") es
    /\ world h' = mkDesk 3 true
    /\ authenticationTag (_encryptedFile (self h')) = ""
    /\ In (Started (UpdateMetadataApiJob "alice" "10" "cccccccccccccccccccc=;" "tok")) es.
Proof.
  do 2 eexists. split; [vm_compute; reflexivity|].
  split; [reflexivity|]. split; [do 2 right; left; reflexivity|].
  split; [reflexivity|]. split; [reflexivity|]. do 6 right; left; reflexivity.
Qed.



(** Scenario A, with the clock moving before and after the reply. *)
Lemma C7_witness :
  exists s,
    execute alice reportItem quietDesk 0
      [Elapse 40; Respond 0 (encryptStatusFolderReceived "docs" false); Elapse 7] = Some s
    /\ existsb isNotEncryptedReply
         [Elapse 40; Respond 0 (encryptStatusFolderReceived "docs" false); Elapse 7] = true
    /\ In (Emitted folerNotEncrypted) (trace s)
    /\ Forall (fun e => isEncryptedFolderCall e = false) (trace s)
    /\ pending s = [].
Proof.
  eexists. split; [vm_compute; reflexivity|]. split; [reflexivity|].
  eapply (@C7_not_encrypted_ends_the_run deskCollaborators alice reportItem quietDesk 0
            [Elapse 40; Respond 0 (encryptStatusFolderReceived "docs" false); Elapse 7]);
    [vm_compute; reflexivity | reflexivity].
Defined.



(** ** The properties of every run, on the scenarios *)

(** Take the result of a run that is known to succeed. *)
Ltac take_run s Hexec :=
  match goal with
  | |- exists s', ?run = Some s' /\ _ =>
      destruct run as [s|] eqn:Hexec; [|by vm_compute in Hexec]
  end.

(** Scenario B ends at a stage, with its calls in the order of that
    stage. *)
Lemma X1_witness :
  exists s,
    execute alice reportItem quietDesk 0 scenarioB = Some s
    /\ exists (n : nat) (st : Stage),
         stagePending st s
         /\ skeleton (trace s) = stageSkeleton n st
         /\ stageClock st s
         /\ underLock st = existsb isLockSuccess scenarioB
         /\ _currentLockingInProgress (self (heap s)) =
            _currentLockingInProgress (constructed alice reportItem) || underLock st.
Proof.
  take_run s Hexec. exists s. split; [reflexivity|].
  exact (@X1_run_is_at_a_stage deskCollaborators _ _ _ _ _ _ Hexec).
Defined.

(** With the update request out, it is the only thing outstanding. *)
Lemma X2_witness :
  exists s,
    execute alice reportItem quietDesk 0 toWriteBack = Some s
    /\ (length (pending s) <= 1)%nat.
Proof.
  take_run s Hexec. exists s. split; [reflexivity|].
  exact (@X2_one_request_outstanding deskCollaborators _ _ _ _ _ _ Hexec).
Defined.

(** The order of calls of scenario B. *)
Lemma X3_witness :
  exists s,
    execute alice reportItem quietDesk 0 scenarioB = Some s
    /\ exists n : nat,
         skeleton (trace s) `prefix_of` fullSkeleton n
         \/ skeleton (trace s) = [KStatus; KNotEncrypted]
         \/ skeleton (trace s) = [KStatus; KListing; KLock] ++ retries n ++ [KTimer].
Proof.
  take_run s Hexec. exists s. split; [reflexivity|].
  exact (@X3_calls_come_in_order deskCollaborators _ _ _ _ _ _ Hexec).
Defined.

(** Scenario B emits its one signal and comes to rest. *)
Lemma X4_witness :
  exists s,
    execute alice reportItem quietDesk 0 scenarioB = Some s
    /\ (length (List.filter isEmitted (trace s)) <= 1)%nat
    /\ (List.filter isEmitted (trace s) <> [] -> pending s = []).
Proof.
  take_run s Hexec. exists s. split; [reflexivity|].
  exact (@X4_at_most_one_signal deskCollaborators _ _ _ _ _ _ Hexec).
Defined.

(** One lock request and one timer in the run whose first request fails. *)
Lemma X5_witness :
  exists s,
    execute alice reportItem quietDesk 0 firstRetry = Some s
    /\ (timersArmed (trace s) <= lockRequests (trace s)
        <= timersArmed (trace s) + 1)%nat.
Proof.
  take_run s Hexec. exists s. split; [reflexivity|].
  exact (@X5_lock_requests_follow_retry_timers deskCollaborators _ _ _ _ _ _ Hexec).
Defined.

(** Scenario F neither unlocks nor reports. *)
Lemma X6_witness :
  exists s,
    execute alice reportItem quietDesk 0 scenarioF = Some s
    /\ Forall (fun e => isUnlockRequest e = false /\ isFailureReport e = false)
         (trace s).
Proof.
  take_run s Hexec. exists s. split; [reflexivity|].
  exact (@execute_never_unlocks_nor_reports deskCollaborators _ _ _ _ _ _ Hexec).
Defined.

(** No lock success, no metadata or encryption call. *)
Lemma X7_witness :
  exists s,
    execute alice reportItem quietDesk 0 firstRetry = Some s
    /\ existsb isLockSuccess firstRetry = false
    /\ Forall (fun e => isMetadataCall e = false /\ isEncryptionCall e = false)
         (trace s).
Proof.
  take_run s Hexec. exists s. split; [reflexivity|]. split; [reflexivity|].
  exact (@X7_nothing_touched_before_the_lock deskCollaborators _ _ _ _ _ _
           Hexec eq_refl).
Defined.

(** The update request of scenario B carries the id and token of its lock
    success. *)
Lemma X8_witness :
  exists s,
    execute alice reportItem quietDesk 0 scenarioB = Some s
    /\ In (Started (UpdateMetadataApiJob "alice" "10"
                      "cccccccccccccccccccc=tag-aaaaaaaaaaaaaaaa;" "tok")) (trace s)
    /\ exists i, In (Respond i (lockSuccess "10" "tok")) scenarioB.
Proof.
  take_run s Hexec. exists s. split; [reflexivity|].
  assert (In (Started (UpdateMetadataApiJob "alice" "10"
                         "cccccccccccccccccccc=tag-aaaaaaaaaaaaaaaa;" "tok"))
             (trace s)) as Hin.
  { pose proof Hexec as Hconcrete. vm_compute in Hconcrete.
    injection Hconcrete as <-. vm_compute. do 15 right. left. reflexivity. }
  split; [exact Hin|].
  exact (proj1 (@X8_write_back_carries_the_granted_token deskCollaborators
                  _ _ _ _ _ _ Hexec) _ _ _ _ Hin).
Defined.

(** A new record for an empty document: the ciphertext goes to the
    temporary folder and that is the path [finalized] names. *)
Lemma X9_witness :
  exists h1 es1,
    slotFolderEncriptedMetadataReceived "{}" 200 (lockedAt quietDesk 0) =
    Some (tt, h1, es1)
    /\ @tempPath deskCollaborators <> ""
    /\ noSlash (encryptedFilename (_encryptedFile (self h1))) = true
    /\ slotUpdateMetadataSuccess "10" h1 =
       Some (tt, h1,
             [Logged "Uploading of the metadata success, Encrypting the file";
              Logged "Encrypted Info:";
              Logged "Finalizing the upload part, now the actuall uploader will take over";
              Emitted (finalized "/tmp/cccccccccccccccccccc"
                         "docs/cccccccccccccccccccc" 4096)]).
Proof.
  destruct (@slotFolderEncriptedMetadataReceived deskCollaborators "{}" 200
              (lockedAt quietDesk 0))
    as [[[[] h1] es1]|] eqn:Hrun; [|by vm_compute in Hrun].
  exists h1, es1. split; [reflexivity|]. split; [discriminate|].
  assert (encryptedFilename (_encryptedFile (self h1)) = "cccccccccccccccccccc")
    as Hname.
  { pose proof Hrun as Hconcrete. vm_compute in Hconcrete.
    by injection Hconcrete as <- <-. }
  assert (noSlash (encryptedFilename (_encryptedFile (self h1))) = true) as Hslash
    by (by rewrite Hname).
  split; [exact Hslash|].
  pose proof (proj2 (@X9_finalized_reports_the_ciphertext deskCollaborators
                       "{}" 200 "10" _ _ _ Hrun ltac:(discriminate) Hslash))
    as Hfinal.
  rewrite Hname in Hfinal. exact Hfinal.
Defined.

(** A failed status check is handled, an empty listing is not, and the
    retry timer fires once it is due. *)
Lemma X10_witness :
  (exists s,
      execute alice reportItem quietDesk 0 [] = Some s
      /\ pending s !! 0%nat = Some (InFlight (GetFolderEncryptStatusJob "alice" "docs"))
      /\ is_Some (step s (Respond 0 (encryptStatusError 500))))
  /\ (exists s,
        execute alice reportItem quietDesk 0
          [Respond 0 (encryptStatusFolderReceived "docs" true)] = Some s
        /\ pending s !! 0%nat =
           Some (InFlight (LsColJob "alice" "docs"
                             ["resourcetype"; "http://owncloud.org/ns:fileid"]))
        /\ step s (Respond 0 (directoryListingSubfolders docsInfos [])) = None)
  /\ (exists s,
        execute alice reportItem quietDesk 0
          [Respond 0 (encryptStatusFolderReceived "docs" true);
           Respond 0 (directoryListingSubfolders docsInfos ["docs"; "docs/old"]);
           Respond 0 (lockError "10" 423);
           Elapse 5000] = Some s
        /\ pending s !! 0%nat = Some (Timer 5000 "10")
        /\ 5000 <= now (heap s)
        /\ is_Some (step s (Expire 0))).
Proof.
  split; [|split].
  - take_run s Hexec. exists s. split; [reflexivity|].
    assert (pending s !! 0%nat =
            Some (InFlight (GetFolderEncryptStatusJob "alice" "docs"))) as Hl.
    { pose proof Hexec as Hconcrete. vm_compute in Hconcrete.
      by injection Hconcrete as <-. }
    split; [exact Hl|].
    apply (proj1 (@X10_only_an_empty_listing_is_undefined deskCollaborators
                    _ _ _ _ _ _ Hexec) 0%nat _ (encryptStatusError 500) _ Hl eq_refl).
    intros infos. discriminate.
  - take_run s Hexec. exists s. split; [reflexivity|].
    assert (pending s !! 0%nat =
            Some (InFlight (LsColJob "alice" "docs"
                              ["resourcetype"; "http://owncloud.org/ns:fileid"])))
      as Hl.
    { pose proof Hexec as Hconcrete. vm_compute in Hconcrete.
      by injection Hconcrete as <-. }
    split; [exact Hl|].
    exact (proj1 (proj2 (@X10_only_an_empty_listing_is_undefined deskCollaborators
                           _ _ _ _ _ _ Hexec)) 0%nat _ _ _ docsInfos Hl).
  - take_run s Hexec. exists s. split; [reflexivity|].
    assert (pending s !! 0%nat = Some (Timer 5000 "10") /\ 5000 <= now (heap s))
      as [Hl Hdue].
    { pose proof Hexec as Hconcrete. vm_compute in Hconcrete.
      injection Hconcrete as <-. split; [reflexivity|]. by vm_compute. }
    split; [exact Hl|]. split; [exact Hdue|].
    exact (proj2 (proj2 (@X10_only_an_empty_listing_is_undefined deskCollaborators
                           _ _ _ _ _ _ Hexec)) 0%nat _ _ Hl Hdue).
Defined.

(** A file in a folder and a file in the top folder. *)
Lemma X11_witness :
  (_file (_item (self (freshAt quietDesk 0))) = "docs" +:+ "/" +:+ "report.pdf"
   /\ noSlash "report.pdf" = true
   /\ "docs" <> ""
   /\ start (freshAt quietDesk 0) =
      Some (tt, freshAt quietDesk 0,
            [Logged "Starting to send an encrypted file!";
             Started (GetFolderEncryptStatusJob "alice" "docs")]))
  /\ (noSlash (_file (_item (self (mergingAt quietDesk 0)))) = true
      /\ start (mergingAt quietDesk 0) =
         Some (tt, mergingAt quietDesk 0,
               [Logged "Starting to send an encrypted file!";
                Started (GetFolderEncryptStatusJob "alice" ".")])).
Proof.
  split.
  - split; [reflexivity|]. split; [reflexivity|]. split; [discriminate|].
    destruct (proj1 (@X11_parent_folder_of_the_file deskCollaborators "10"
                       (freshAt quietDesk 0)) "docs" "report.pdf"
                eq_refl eq_refl ltac:(discriminate)) as [Hstart _].
    exact Hstart.
  - split; [reflexivity|].
    destruct (proj2 (@X11_parent_folder_of_the_file deskCollaborators "10"
                       (mergingAt quietDesk 0)) eq_refl) as [Hstart _].
    exact Hstart.
Defined.

(** The first lock request fails and five seconds later the retry timer
    fires: its lambda ends in one of the three ways. *)
Lemma X12_witness :
  exists s s',
    execute alice reportItem quietDesk 0
      [Respond 0 (encryptStatusFolderReceived "docs" true);
       Respond 0 (directoryListingSubfolders docsInfos ["docs"; "docs/old"]);
       Respond 0 (lockError "10" 423);
       Elapse 5000] = Some s
    /\ step s (Expire 0) = Some s'
    /\ heap s' = heap s
    /\ exists due fileId t1,
         pending s = [Timer due fileId]
         /\ _folderLockFirstTry (self (heap s)) = Some t1
         /\ ((_currentLockingInProgress (self (heap s)) = false
              /\ trace s' = trace s ++ abortLog
              /\ pending s' = [])
             \/ (_currentLockingInProgress (self (heap s)) = true
                 /\ now (heap s) - t1 > 1000 * 60 * 5
                 /\ trace s' =
                    trace s
                    ++ [Logged "One minute passed, ignoring more attemps to lock the folder."]
                 /\ pending s' = [])
             \/ (_currentLockingInProgress (self (heap s)) = true
                 /\ now (heap s) - t1 <= 1000 * 60 * 5
                 /\ trace s' =
                    trace s ++ [Started (LockEncryptFolderApiJob (account alice) fileId)]
                 /\ pending s' =
                    [InFlight (LockEncryptFolderApiJob (account alice) fileId)])).
Proof.
  match goal with
  | |- exists s s', ?run = Some s /\ _ =>
      destruct run as [s|] eqn:Hexec; [|by vm_compute in Hexec]
  end.
  destruct (step s (Expire 0)) as [s'|] eqn:Hs.
  - exists s, s'. split; [reflexivity|]. split; [exact Hs|].
    exact (@X12_a_firing_timer_gives_up_or_asks_again deskCollaborators
             _ _ _ _ _ _ _ _ Hexec Hs).
  - vm_compute in Hexec. injection Hexec as <-. by vm_compute in Hs.
Defined.

(** Scenario B: [finalized] after the lock and the update were granted. *)
Lemma X13_witness :
  exists s,
    execute alice reportItem quietDesk 0 scenarioB = Some s
    /\ existsb isFinalized (trace s) = true
    /\ existsb isLockSuccess scenarioB = true
    /\ exists i fileId, In (Respond i (updateSuccess fileId)) scenarioB.
Proof.
  take_run s Hexec. exists s. split; [reflexivity|].
  assert (existsb isFinalized (trace s) = true) as Hfin.
  { pose proof Hexec as Hconcrete. vm_compute in Hconcrete.
    by injection Hconcrete as <-. }
  split; [exact Hfin|].
  exact (proj1 (@X13_signals_follow_the_replies deskCollaborators
                  _ _ _ _ _ _ Hexec) Hfin).
Defined.
